(** * AutoUpdateManager (src/filebrowser/auto-update-mgr.cpp)

    A shallow embedding of the cached-file watcher of the Seafile client:
    the registry [watch_infos_], the watch set of the [QFileSystemWatcher]
    member [watcher_], the deferred queue [deleted_files_infos_] and the
    slots that move entries between them.  Calls that leave the class
    (logging, tray messages, timers, upload tasks, the transfer manager)
    are recorded, in order, in an effect trace. *)

From Stdlib Require Import ZArith Ascii.
From stdpp Require Import gmap strings list fin_maps.

Local Open Scope Z_scope.
#[local] Set Warnings "-clear-no-such-hyp".

(** ** Data model *)

(** Modelled from the spec: the [Account] class (account.h is not part of
    the sources) is an opaque comparable identity; a default-constructed
    account has the empty identity. *)
Record Account := mkAccount { account_id : string }.

#[global] Instance Account_eq_dec : EqDecision Account.
Proof. solve_decision. Defined.

(** Modelled from the spec: the [WatchedFileInfo] struct (auto-update-mgr.h
    is not part of the sources): account, repository id, path in the
    repository and the [uploading] flag. *)
Record WatchedFileInfo := mkWatchedFileInfo {
  account : Account;
  repo_id : string;
  path_in_repo : string;
  uploading : bool
}.

#[global] Instance WatchedFileInfo_eq_dec : EqDecision WatchedFileInfo.
Proof. solve_decision. Defined.

(** [WatchedFileInfo(account, repo_id, path)] as used on line 83. *)
Definition WatchedFileInfo_new (a : Account) (r p : string) : WatchedFileInfo :=
  mkWatchedFileInfo a r p false.

(** Modelled from the spec: the default-constructed [WatchedFileInfo()]
    that [QHash::operator[]] inserts for a missing key has empty account,
    repository and path fields. *)
Definition WatchedFileInfo_default : WatchedFileInfo :=
  mkWatchedFileInfo (mkAccount "") "" "" false.

Definition set_uploading (b : bool) (i : WatchedFileInfo) : WatchedFileInfo :=
  mkWatchedFileInfo (account i) (repo_id i) (path_in_repo i) b.

(** The arguments of [DataManager::createUploadTask], lines 133-135. *)
Record UploadRequest := mkUploadRequest {
  req_account : Account;
  req_repo_id : string;
  req_parent_dir : string;
  req_local_path : string;
  req_name : string;
  req_overwrite : bool
}.

#[global] Instance UploadRequest_eq_dec : EqDecision UploadRequest.
Proof. solve_decision. Defined.

(** What [onUpdateTaskFinished] reads from the [FileUploadTask] that sent
    the [finished] signal: [localFilePath()], [repoId()] and [path()]. *)
Record FileUploadTask := mkFileUploadTask {
  localFilePath : string;
  repoId : string;
  path : string
}.

Inductive LogLevel := Debug | Warning.

Inductive TrayMessage :=
| UploadSuccess (file_name : string)
| UploadFailure (file_name : string).

(** Calls that leave the class. *)
Inductive Effect :=
| QLog (lvl : LogLevel) (msg : string)
| CancelAllDownloadTasks
| CleanCurrentAccountCache
| StartCachedFilesCleaner
| SingleShot (msec : Z)
| StartUploadTask (req : UploadRequest)
| ShowMessage (msg : TrayMessage) (context : string)
| FileUpdated (repo : string) (p : string).

#[global] Instance LogLevel_eq_dec : EqDecision LogLevel.
Proof. solve_decision. Defined.
#[global] Instance TrayMessage_eq_dec : EqDecision TrayMessage.
Proof. solve_decision. Defined.
#[global] Instance Effect_eq_dec : EqDecision Effect.
Proof. solve_decision. Defined.

(** Helpers of other files and of Qt that the class calls; they are fixed
    for a build. *)
Record Platform := mkPlatform {
  Q_OS_MAC : bool;
  getLocalCacheFilePath : string -> string -> string;
  getParentPath : string -> string;
  getBaseName : string -> string;
  fileName : string -> string;
  mimeTypeFromFileName : string -> string
}.

(** What the outside world answers during one call. *)
Record Env := mkEnv {
  file_exists : string -> bool;
  currentAccount : Account;
  currentMSecsSinceEpoch : Z;
  watcher_addPath : string -> bool;
  watcher_removePath : string -> bool
}.

(** The members of [AutoUpdateManager], the [images_] table of
    [MacImageFilesWorkAround], and the effect trace (oldest first). *)
Record State := mkState {
  watcher_ : gset string;
  watch_infos_ : gmap string WatchedFileInfo;
  deleted_files_infos_ : list WatchedFileInfo;
  images_ : gmap string Z;
  effects : list Effect
}.

Definition set_watcher (w : gset string) (s : State) : State :=
  mkState w (watch_infos_ s) (deleted_files_infos_ s) (images_ s) (effects s).
Definition set_watch_infos (m : gmap string WatchedFileInfo) (s : State) : State :=
  mkState (watcher_ s) m (deleted_files_infos_ s) (images_ s) (effects s).
Definition set_deleted_files_infos (q : list WatchedFileInfo) (s : State) : State :=
  mkState (watcher_ s) (watch_infos_ s) q (images_ s) (effects s).
Definition set_images (im : gmap string Z) (s : State) : State :=
  mkState (watcher_ s) (watch_infos_ s) (deleted_files_infos_ s) im (effects s).
Definition emit (e : Effect) (s : State) : State :=
  mkState (watcher_ s) (watch_infos_ s) (deleted_files_infos_ s) (images_ s)
          (effects s ++ [e]).

Definition qDebug (msg : string) : State -> State := emit (QLog Debug msg).
Definition qWarning (msg : string) : State -> State := emit (QLog Warning msg).

(** The state after the constructor. *)
Definition initial : State := mkState ∅ ∅ [] ∅ [].

(** ** The two helpers of the anonymous namespace, lines 28-46 *)

Definition addPath (env : Env) (file : string) (s : State) : bool * State :=
  if bool_decide (file ∈ watcher_ s) then (true, s)
  else if watcher_addPath env file
       then (true, set_watcher (watcher_ s ∪ {[file]}) s)
       else (false,
             qWarning ("[AutoUpdateManager] failed to watch cache file " +:+ file) s).

Definition removePath (env : Env) (file : string) (s : State) : bool * State :=
  if negb (bool_decide (file ∈ watcher_ s)) then (true, s)
  else if watcher_removePath env file
       then (true, set_watcher (watcher_ s ∖ {[file]}) s)
       else (false,
             qWarning ("[AutoUpdateManager] failed to remove watch on cache file "
                       +:+ file) s).

(** [QHash::operator[]] on a non-const hash: a missing key is inserted
    with a default-constructed value. *)
Definition index (key : string) (m : gmap string WatchedFileInfo)
  : WatchedFileInfo * gmap string WatchedFileInfo :=
  match m !! key with
  | Some i => (i, m)
  | None => (WatchedFileInfo_default, <[key := WatchedFileInfo_default]> m)
  end.

(** [QHash::keys()]: a copy of the keys. *)
Definition keys (m : gmap string WatchedFileInfo) : list string :=
  (map_to_list m).*1.

(** [qint64]: a sum is reduced to the range from -2^63 to 2^63 - 1. *)
Definition qint64_wrap (z : Z) : Z :=
  (z + 9223372036854775808) mod 18446744073709551616 - 9223372036854775808.

Definition qint64_add (a b : Z) : Z := qint64_wrap (a + b).

Section Manager.
Context (pf : Platform).

(** ** MacImageFilesWorkAround, lines 203-219 *)

Definition fileOpened (env : Env) (p : string) (s : State) : State :=
  let mimetype := mimeTypeFromFileName pf p in
  if String.prefix "image" mimetype || bool_decide (mimetype = "application/pdf")
  then set_images (<[p := currentMSecsSinceEpoch env]> (images_ s)) s
  else s.

(** [ts + 1000 * 10] is a [qint64] sum: it wraps at the ends of the 64-bit
    signed range. *)
Definition isRecentOpenedImage (env : Env) (p : string) (s : State) : bool :=
  let ts := default 0 (images_ s !! p) in
  if bool_decide (currentMSecsSinceEpoch env < qint64_add ts (1000 * 10))
  then true else false.

(** The [#ifdef Q_OS_MAC] block at the head of [onFileChanged]. *)
Definition suppressed (env : Env) (p : string) (s : State) : bool :=
  Q_OS_MAC pf && isRecentOpenedImage env p s.

(** ** watchCachedFile, lines 63-84 *)

Definition in_deferred_list (r p : string) (q : list WatchedFileInfo) : bool :=
  existsb (fun info => bool_decide (r = repo_id info)
                       && bool_decide (p = path_in_repo info)) q.

Definition watchCachedFile (env : Env) (a : Account) (r p : string) (s : State)
  : State :=
  let local_path := getLocalCacheFilePath pf r p in
  let s := qDebug ("[AutoUpdateManager] watch cache file " +:+ local_path) s in
  if negb (file_exists env local_path) then
    qWarning ("[AutoUpdateManager] unable to watch non-existent cache file "
              +:+ local_path) s
  else if in_deferred_list r p (deleted_files_infos_ s) then s
  else
    let s := (addPath env local_path s).2 in
    set_watch_infos (<[local_path := WatchedFileInfo_new a r p]> (watch_infos_ s)) s.

(** ** cleanCachedFile, lines 86-101 *)

Definition clean_step (cur : Account) (m : gmap string WatchedFileInfo)
           (key : string) : gmap string WatchedFileInfo :=
  let '(info, m) := index key m in
  if bool_decide (account info = cur) then delete key m else m.

Definition cleanCachedFile (env : Env) (s : State) : State :=
  let s := qDebug "[AutoUpdateManager] cancel all download tasks" s in
  let s := emit CancelAllDownloadTasks s in
  let cur_account := currentAccount env in
  let s := set_watch_infos
             (foldl (clean_step cur_account) (watch_infos_ s) (keys (watch_infos_ s)))
             s in
  let s := emit CleanCurrentAccountCache s in
  emit StartCachedFilesCleaner s.

(** ** start, lines 58-61 *)

Definition start (env : Env) (s : State) : State := cleanCachedFile env s.

(** ** removeWatch, lines 171-175 *)

Definition removeWatch (env : Env) (local_path : string) (s : State) : State :=
  let s := set_watch_infos (delete local_path (watch_infos_ s)) s in
  (removePath env local_path s).2.

(** ** onFileChanged, lines 103-144 *)

Definition onFileChanged (env : Env) (local_path : string) (s : State) : State :=
  let s := qDebug ("[AutoUpdateManager] detected cache file " +:+ local_path
                   +:+ " changed") s in
  if suppressed env local_path s then s
  else
    let s := (removePath env local_path s).2 in
    if negb (bool_decide (is_Some (watch_infos_ s !! local_path))) then s
    else
      let '(info, m) := index local_path (watch_infos_ s) in
      let s := set_watch_infos m s in
      if negb (file_exists env local_path) then
        let s := qDebug ("[AutoUpdateManager] detected cache file " +:+ local_path
                         +:+ " renamed or removed") s in
        let deferred_info := info in
        let s := removeWatch env local_path s in
        let s := emit (SingleShot 5000) s in
        set_deleted_files_infos (deleted_files_infos_ s ++ [deferred_info]) s
      else
        let task := mkUploadRequest (account info) (repo_id info)
                      (getParentPath pf (path_in_repo info))
                      local_path (getBaseName pf local_path) true in
        let s := qDebug ("[AutoUpdateManager] start uploading new version of file "
                         +:+ local_path) s in
        let s := emit (StartUploadTask task) s in
        set_watch_infos (<[local_path := set_uploading true info]> (watch_infos_ s)) s.

(** ** onUpdateTaskFinished, lines 146-169

    [sender] is [None] when [qobject_cast<FileUploadTask *>(sender())] is
    [NULL]. *)

Definition onUpdateTaskFinished (env : Env) (sender : option FileUploadTask)
           (success : bool) (s : State) : State :=
  match sender with
  | None => s
  | Some task =>
    let local_path := localFilePath task in
    if success then
      let s := qDebug ("[AutoUpdateManager] uploaded new version of file "
                       +:+ local_path) s in
      let s := emit (ShowMessage (UploadSuccess (fileName pf local_path))
                                 (repoId task)) s in
      let s := emit (FileUpdated (repoId task) (path task)) s in
      let s := (addPath env local_path s).2 in
      let '(info, m) := index local_path (watch_infos_ s) in
      set_watch_infos (<[local_path := set_uploading false info]> m) s
    else
      let s := qWarning ("[AutoUpdateManager] failed to upload new version of file "
                         +:+ local_path) s in
      let s := emit (ShowMessage (UploadFailure (fileName pf local_path))
                                 (repoId task)) s in
      set_watch_infos (delete local_path (watch_infos_ s)) s
  end.

(** ** checkFileRecreated, lines 177-194 *)

Definition checkFileRecreated (env : Env) (s : State) : State :=
  match deleted_files_infos_ s with
  | [] => s
  | info :: rest =>
    let s := set_deleted_files_infos rest s in
    let p := getLocalCacheFilePath pf (repo_id info) (path_in_repo info) in
    if file_exists env p then
      let s := qDebug ("[AutoUpdateManager] detected recreated file " +:+ p) s in
      let s := (addPath env p s).2 in
      let s := set_watch_infos (<[p := info]> (watch_infos_ s)) s in
      onFileChanged env p s
    else s
  end.

End Manager.

(** ** Calls into the class and runs *)

Inductive Call :=
| Start
| WatchCachedFile (a : Account) (r p : string)
| CleanCachedFile
| OnFileChanged (local_path : string)
| OnUpdateTaskFinished (sender : option FileUploadTask) (success : bool)
| RemoveWatch (local_path : string)
| CheckFileRecreated
| FileOpened (p : string).

Definition call (pf : Platform) (env : Env) (c : Call) (s : State) : State :=
  match c with
  | Start => start env s
  | WatchCachedFile a r p => watchCachedFile pf env a r p s
  | CleanCachedFile => cleanCachedFile env s
  | OnFileChanged l => onFileChanged pf env l s
  | OnUpdateTaskFinished t ok => onUpdateTaskFinished pf env t ok s
  | RemoveWatch l => removeWatch env l s
  | CheckFileRecreated => checkFileRecreated pf env s
  | FileOpened p => fileOpened pf env p s
  end.

(** A run: each call comes with what the outside world answers during it. *)
Fixpoint run (pf : Platform) (steps : list (Env * Call)) (s : State) : State :=
  match steps with
  | [] => s
  | (env, c) :: rest => run pf rest (call pf env c s)
  end.

(** A successful completion is delivered for a path that still has its
    registry entry. *)
Definition timely (c : Call) (s : State) : Prop :=
  match c with
  | OnUpdateTaskFinished (Some t) true => is_Some (watch_infos_ s !! localFilePath t)
  | _ => True
  end.

Fixpoint timely_run (pf : Platform) (steps : list (Env * Call)) (s : State) : Prop :=
  match steps with
  | [] => True
  | (env, c) :: rest => timely c s ∧ timely_run pf rest (call pf env c s)
  end.

(** The effects a call added to the trace. *)
Definition performed (before after : State) : list Effect :=
  drop (length (effects before)) (effects after).

(** ** Properties of states *)

(** The watch set of the notification subsystem and the registry hold the
    same paths. *)
Definition armed_iff_registered (s : State) : Prop :=
  ∀ p : string, p ∈ watcher_ s ↔ is_Some (watch_infos_ s !! p).

(** No registry entry has its [(repo_id, path_in_repo)] in the deferred
    queue; the test is the one [watchCachedFile] runs on lines 76-80. *)
Definition exclusive (s : State) : Prop :=
  map_Forall (λ _ i, in_deferred_list (repo_id i) (path_in_repo i)
                                      (deleted_files_infos_ s) = false)
             (watch_infos_ s).

(** Every registry entry sits under the cache path of its own pair. *)
Definition keyed (pf : Platform) (s : State) : Prop :=
  map_Forall (λ k i, k = getLocalCacheFilePath pf (repo_id i) (path_in_repo i))
             (watch_infos_ s).

Definition pair_of (i : WatchedFileInfo) : string * string :=
  (repo_id i, path_in_repo i).

Definition relationship (pf : Platform) (s : State) : Prop :=
  keyed pf s ∧ exclusive s ∧ NoDup (pair_of <$> deleted_files_infos_ s).

(** The same three properties for the entries that name a file: the
    default-constructed entry has the empty repository and the empty
    path. *)
Definition exclusive_real (s : State) : Prop :=
  map_Forall (λ _ i, pair_of i ≠ ("", "") →
                     in_deferred_list (repo_id i) (path_in_repo i)
                                      (deleted_files_infos_ s) = false)
             (watch_infos_ s).

Definition keyed_real (pf : Platform) (s : State) : Prop :=
  map_Forall (λ k i, pair_of i ≠ ("", "") →
                     k = getLocalCacheFilePath pf (repo_id i) (path_in_repo i))
             (watch_infos_ s).

Definition real_pairs (q : list WatchedFileInfo) : list (string * string) :=
  filter (λ rp, rp ≠ ("", "")) (pair_of <$> q).

Definition relationship_real (pf : Platform) (s : State) : Prop :=
  keyed_real pf s ∧ exclusive_real s ∧ NoDup (real_pairs (deleted_files_infos_ s)).

(** What an entry becomes when the account [cur] is cleaned. *)
Definition kept (cur : Account) (o : option WatchedFileInfo) : option WatchedFileInfo :=
  match o with
  | Some i => if bool_decide (account i = cur) then None else Some i
  | None => None
  end.

(** ** The transfer engine as seen from this class *)

(** Modelled from the spec: the transfer engine (transfer-mgr.cpp and
    data-mgr.cpp are not part of the sources).  An upload task made by
    [createUploadTask] and started is in flight until it reports
    [finished].  The bulk cancel that [cleanCachedFile] calls "cancels all
    in-flight uploads for that account": it ends the download tasks and the
    uploads of [cur], the account that is current when it is called. *)
Record TransferEngine := mkTransferEngine {
  download_tasks : list string;
  upload_tasks : list UploadRequest
}.

Definition engine_step (cur : Account) (t : TransferEngine) (e : Effect)
  : TransferEngine :=
  match e with
  | CancelAllDownloadTasks =>
    mkTransferEngine []
      (List.filter (λ r, negb (bool_decide (req_account r = cur))) (upload_tasks t))
  | StartUploadTask req => mkTransferEngine (download_tasks t) (upload_tasks t ++ [req])
  | _ => t
  end.

Definition engine_after (cur : Account) (t : TransferEngine) (tr : list Effect)
  : TransferEngine :=
  foldl (engine_step cur) t tr.

(** ** Sample worlds *)

Fixpoint after_last_slash (acc s : string) : string :=
  match s with
  | EmptyString => acc
  | String c r => if Ascii.eqb c "/"%char then after_last_slash r r
                  else after_last_slash acc r
  end.

Definition sample_base_name (s : string) : string := after_last_slash s s.

Definition sample_parent_path (s : string) : string :=
  let n := (String.length s - String.length (sample_base_name s) - 1)%nat in
  if bool_decide (n = 0%nat) then "/" else String.substring 0 n s.

Definition sample_mime_type (s : string) : string :=
  if bool_decide (sample_base_name s = "photo.png") then "image/png"
  else "application/octet-stream".

Definition sample_platform (mac : bool) : Platform :=
  mkPlatform mac (λ r p, "/cache/" +:+ r +:+ p)
             sample_parent_path sample_base_name sample_base_name
             sample_mime_type.

(** A world in which exactly the files of [present] exist and the watcher
    never refuses. *)
Definition sample_env (present : list string) (cur : Account) : Env :=
  mkEnv (λ p, bool_decide (p ∈ present)) cur 1700000000000 (λ _, true) (λ _, true).

(** The same world twenty seconds later. *)
Definition later (env : Env) : Env :=
  mkEnv (file_exists env) (currentAccount env) (currentMSecsSinceEpoch env + 20000)
        (watcher_addPath env) (watcher_removePath env).

Definition alice : Account := mkAccount "alice@example.com".
Definition bob : Account := mkAccount "bob@example.com".

Definition report : string := "/cache/repoX/report.docx".
Definition notes : string := "/cache/repoX/notes.txt".

Definition photo : string := "/cache/repoX/photo.png".

(** On a Mac build: [photo] is registered and armed and has just been
    opened in a viewer. *)
Definition viewing_photo : State :=
  let env := sample_env [photo] alice in
  fileOpened (sample_platform true) env photo
             (watchCachedFile (sample_platform true) env alice "repoX" "/photo.png"
                              initial).

(** [report] registered for [alice] and armed. *)
Definition watching_report : State :=
  watchCachedFile (sample_platform false) (sample_env [report] alice)
                  alice "repoX" "/report.docx" initial.

(** The same after a change notification: the upload is in flight. *)
Definition uploading_report : State :=
  onFileChanged (sample_platform false) (sample_env [report] alice) report
                watching_report.

(** [report] was deleted under the watch: its entry waits in the queue. *)
Definition report_deferred : State :=
  onFileChanged (sample_platform false) (sample_env [] alice) report
                watching_report.

(** An editor saves [report] by deleting and recreating it; the file is
    registered again while its entry waits in the queue. *)
Definition save_by_replace : list (Env * Call) :=
  let present := sample_env [report] alice in
  let absent := sample_env [] alice in
  [ (present, WatchCachedFile alice "repoX" "/report.docx");
    (absent, OnFileChanged report);
    (present, WatchCachedFile alice "repoX" "/report.docx");
    (present, CheckFileRecreated);
    (present, OnUpdateTaskFinished
                (Some (mkFileUploadTask report "repoX" "/report.docx")) true) ].

(** Two uploads in flight, the account is cleaned, the first upload
    succeeds, its file vanishes, then the second upload succeeds. *)
Definition late_completions : list (Env * Call) :=
  let both := sample_env [report; notes] alice in
  [ (both, WatchCachedFile alice "repoX" "/report.docx");
    (both, WatchCachedFile alice "repoX" "/notes.txt");
    (both, OnFileChanged report);
    (both, OnFileChanged notes);
    (both, CleanCachedFile);
    (both, OnUpdateTaskFinished (Some (mkFileUploadTask report "repoX" "/report.docx")) true);
    (sample_env [notes] alice, OnFileChanged report);
    (both, OnUpdateTaskFinished (Some (mkFileUploadTask notes "repoX" "/notes.txt")) true) ].

(** The run [late_completions] up to the second completion. *)
Definition one_completion_late : list (Env * Call) := take 7 late_completions.

(** On a Mac build: [photo] is deleted under the watch and its entry waits
    in the queue. *)
Definition photo_deferred : State :=
  onFileChanged (sample_platform true) (sample_env [] alice) photo
    (watchCachedFile (sample_platform true) (sample_env [photo] alice)
                     alice "repoX" "/photo.png" initial).

(** The file is back and has just been opened in a viewer. *)
Definition photo_reopened : State :=
  fileOpened (sample_platform true) (sample_env [photo] alice) photo photo_deferred.

(** ** Timers and firings *)

Definition is_single_shot (e : Effect) : bool :=
  match e with SingleShot _ => true | _ => false end.

(** The number of [QTimer::singleShot] calls made so far. *)
Definition scheduled (s : State) : nat :=
  length (List.filter is_single_shot (effects s)).

(** The number of times [checkFileRecreated] is called in a run. *)
Fixpoint firings (steps : list (Env * Call)) : nat :=
  match steps with
  | [] => 0%nat
  | (_, CheckFileRecreated) :: rest => S (firings rest)
  | _ :: rest => firings rest
  end.

(** [checkFileRecreated] is a slot that only the timers of line 127 call:
    when it runs, fewer firings have happened than timers were scheduled. *)
Fixpoint timer_driven (pf : Platform) (steps : list (Env * Call)) (s : State)
         (fired : nat) : Prop :=
  match steps with
  | [] => True
  | (env, CheckFileRecreated) :: rest =>
    (fired < scheduled s)%nat
    ∧ timer_driven pf rest (call pf env CheckFileRecreated s) (S fired)
  | (env, c) :: rest => timer_driven pf rest (call pf env c s) fired
  end.

(** The watcher takes every path it is given. *)
Definition accepts_adds (env : Env) : Prop :=
  ∀ p, watcher_addPath env p = true.

(** Every registry entry is armed or has its [uploading] flag set. *)
Definition watched_or_uploading (s : State) : Prop :=
  map_Forall (λ k i, k ∈ watcher_ s ∨ uploading i = true) (watch_infos_ s).

(** The request [onFileChanged] builds on lines 133-135 for the entry
    [info] registered under [L]. *)
Definition upload_request (pf : Platform) (L : string) (info : WatchedFileInfo)
  : UploadRequest :=
  mkUploadRequest (account info) (repo_id info)
                  (getParentPath pf (path_in_repo info))
                  L (getBaseName pf L) true.

(** The upload tasks started so far, oldest first. *)
Fixpoint uploads_in (tr : list Effect) : list UploadRequest :=
  match tr with
  | [] => []
  | StartUploadTask r :: rest => r :: uploads_in rest
  | _ :: rest => uploads_in rest
  end.

Definition uploads_started (s : State) : list UploadRequest :=
  uploads_in (effects s).

(** [report] is registered and then deleted under the watch. *)
Definition deleted_under_watch : list (Env * Call) :=
  [ (sample_env [report] alice, WatchCachedFile alice "repoX" "/report.docx");
    (sample_env [] alice, OnFileChanged report) ].

(** The test of line 206 on the MIME type of a path. *)
Definition image_or_pdf (pf : Platform) (p : string) : bool :=
  String.prefix "image" (mimeTypeFromFileName pf p)
  || bool_decide (mimeTypeFromFileName pf p = "application/pdf").

(** ** CachedFilesCleaner, lines 222-248 *)

Definition kFileCacheTopDirName : string := "file-cache".
Definition kFileCacheTempTopDirName : string := "file-cache-tmp".
Definition kFileCacheDBFileName : string := "file-cache.db".

(** What [run] asks of the disk [D]: [QFile::exists] and [QDir::exists],
    [QFile::remove], [delete_dir_recursively] of utils (its result is not
    looked at) and [QDir::rename]. *)
Record FileSystem (D : Type) := mkFileSystem {
  path_exists : string → D → bool;
  QFile_remove : string → D → bool * D;
  delete_dir_recursively : string → D → D;
  QDir_rename : string → string → D → bool * D
}.

Arguments path_exists {D}.
Arguments QFile_remove {D}.
Arguments delete_dir_recursively {D}.
Arguments QDir_rename {D}.

(** [seafApplet->configurator()->seafileDir()] and [pathJoin] of utils. *)
Record CleanerConfig := mkCleanerConfig {
  seafileDir : string;
  pathJoin : string → string → string
}.

Definition file_cache_dir (cfg : CleanerConfig) : string :=
  pathJoin cfg (seafileDir cfg) kFileCacheTopDirName.
Definition file_cache_tmp_dir (cfg : CleanerConfig) : string :=
  pathJoin cfg (seafileDir cfg) kFileCacheTempTopDirName.
Definition file_cache_db_file (cfg : CleanerConfig) : string :=
  pathJoin cfg (seafileDir cfg) kFileCacheDBFileName.

(** [CachedFilesCleaner::run] on a disk and a log. *)
Definition CachedFilesCleaner_run {D : Type} (fs : FileSystem D) (cfg : CleanerConfig)
           (st : D * list Effect) : D * list Effect :=
  let '(d, log) := st in
  let log := log ++ [QLog Debug "[AutoUpdateManager] removing cached files"] in
  let '(d, log) :=
    if path_exists fs (file_cache_db_file cfg) d then
      let '(ok, d) := QFile_remove fs (file_cache_db_file cfg) d in
      if negb ok
      then (d, log ++ [QLog Warning "[AutoUpdateManager] failed to remove db file"])
      else (d, log)
    else (d, log) in
  let d :=
    if path_exists fs (file_cache_tmp_dir cfg) d
    then delete_dir_recursively fs (file_cache_tmp_dir cfg) d
    else d in
  let d :=
    if path_exists fs (file_cache_dir cfg) d
    then delete_dir_recursively fs (file_cache_tmp_dir cfg)
           (QDir_rename fs (file_cache_dir cfg) (file_cache_tmp_dir cfg) d).2
    else d in
  (d, log).

(** A disk on which the three calls do their work: each changes the
    existence of the paths it names as its name says and of no other. *)
Record cooperative {D : Type} (fs : FileSystem D) : Prop := mkCooperative {
  remove_removes : ∀ f d, path_exists fs f (QFile_remove fs f d).2 = false;
  remove_succeeds : ∀ f d, path_exists fs f d = true → (QFile_remove fs f d).1 = true;
  remove_frame : ∀ f g d, g ≠ f →
    path_exists fs g (QFile_remove fs f d).2 = path_exists fs g d;
  delete_deletes : ∀ p d, path_exists fs p (delete_dir_recursively fs p d) = false;
  delete_frame : ∀ p g d, g ≠ p →
    path_exists fs g (delete_dir_recursively fs p d) = path_exists fs g d;
  rename_moves : ∀ a b d, path_exists fs a d = true → path_exists fs b d = false →
    path_exists fs a (QDir_rename fs a b d).2 = false;
  rename_frame : ∀ a b g d, g ≠ a → g ≠ b →
    path_exists fs g (QDir_rename fs a b d).2 = path_exists fs g d
}.

(** The three paths of the cleaner are different paths. *)
Definition distinct_paths (cfg : CleanerConfig) : Prop :=
  file_cache_db_file cfg ≠ file_cache_tmp_dir cfg
  ∧ file_cache_db_file cfg ≠ file_cache_dir cfg
  ∧ file_cache_tmp_dir cfg ≠ file_cache_dir cfg.

(** A disk as the set of the paths that exist, on which every call
    succeeds; [QDir::rename] refuses an existing target. *)
Definition sample_disk : FileSystem (gset string) :=
  mkFileSystem (gset string)
    (λ p d, bool_decide (p ∈ d))
    (λ f d, (bool_decide (f ∈ d), d ∖ {[f]}))
    (λ p d, d ∖ {[p]})
    (λ a b d, if bool_decide (a ∈ d) && negb (bool_decide (b ∈ d))
              then (true, (d ∖ {[a]}) ∪ {[b]}) else (false, d)).

(** The same disk, except that directories cannot be deleted. *)
Definition stubborn_disk : FileSystem (gset string) :=
  mkFileSystem (gset string)
    (path_exists sample_disk) (QFile_remove sample_disk)
    (λ _ d, d) (QDir_rename sample_disk).

Definition sample_cleaner_config : CleanerConfig :=
  mkCleanerConfig "/home/alice/Seafile/.seafile-data" (λ a b, a +:+ "/" +:+ b).

(** A disk with the database file, both directories and one more file. *)
Definition sample_disk_contents : gset string :=
  {[ file_cache_db_file sample_cleaner_config;
     file_cache_tmp_dir sample_cleaner_config;
     file_cache_dir sample_cleaner_config;
     "/home/alice/Seafile/.seafile-data/accounts.db" ]}.

(** The same without the database file. *)
Definition sample_disk_no_db : gset string :=
  {[ file_cache_tmp_dir sample_cleaner_config;
     file_cache_dir sample_cleaner_config;
     "/home/alice/Seafile/.seafile-data/accounts.db" ]}.

(** ** Basic facts about the helpers *)

Example watching_report_registry :
  watch_infos_ watching_report !! report = Some (WatchedFileInfo_new alice "repoX" "/report.docx")
  ∧ report ∈ watcher_ watching_report.
Proof. split; [vm_compute; reflexivity | by vm_compute]. Qed.

(** ** The watcher helpers *)

Ltac state_simpl :=
  unfold set_watcher, set_watch_infos, set_deleted_files_infos, set_images,
         qDebug, qWarning, emit in *;
  simpl in *.

Ltac case_watcher :=
  unfold addPath, removePath;
  repeat match goal with
         | |- context [bool_decide ?P] => destruct (bool_decide P)
         | |- context [watcher_addPath ?e ?f] => destruct (watcher_addPath e f)
         | |- context [watcher_removePath ?e ?f] => destruct (watcher_removePath e f)
         end;
  simpl.

Lemma addPath_watch_infos env f s : watch_infos_ (addPath env f s).2 = watch_infos_ s.
Proof. by case_watcher. Qed.

Lemma addPath_deleted env f s :
  deleted_files_infos_ (addPath env f s).2 = deleted_files_infos_ s.
Proof. by case_watcher. Qed.

Lemma addPath_images env f s : images_ (addPath env f s).2 = images_ s.
Proof. by case_watcher. Qed.

Lemma addPath_ok env f s :
  watcher_addPath env f = true →
  (addPath env f s).2 = set_watcher (watcher_ s ∪ {[f]}) s.
Proof.
  intros Hok. unfold addPath. rewrite Hok.
  destruct (bool_decide_reflect (f ∈ watcher_ s)) as [Hin|Hin]; [|done].
  destruct s as [w m q im tr]; simpl in *. unfold set_watcher; simpl.
  f_equal. set_solver.
Qed.

Lemma addPath_armed env f s :
  watcher_addPath env f = true → f ∈ watcher_ (addPath env f s).2.
Proof. intros Hok. rewrite addPath_ok by done. simpl. set_solver. Qed.

Lemma addPath_keeps env f g s : g ∈ watcher_ s → g ∈ watcher_ (addPath env f s).2.
Proof. case_watcher; set_solver. Qed.

Lemma removePath_watch_infos env f s :
  watch_infos_ (removePath env f s).2 = watch_infos_ s.
Proof. by case_watcher. Qed.

Lemma removePath_deleted env f s :
  deleted_files_infos_ (removePath env f s).2 = deleted_files_infos_ s.
Proof. by case_watcher. Qed.

Lemma removePath_images env f s : images_ (removePath env f s).2 = images_ s.
Proof. by case_watcher. Qed.

Lemma removePath_ok env f s :
  watcher_removePath env f = true →
  (removePath env f s).2 = set_watcher (watcher_ s ∖ {[f]}) s.
Proof.
  intros Hok. unfold removePath. rewrite Hok.
  destruct (bool_decide_reflect (f ∈ watcher_ s)) as [Hin|Hin]; simpl; [done|].
  destruct s as [w m q im tr]; simpl in *. unfold set_watcher; simpl.
  f_equal. set_solver.
Qed.

Lemma removePath_other env f g s :
  g ≠ f → (g ∈ watcher_ (removePath env f s).2 ↔ g ∈ watcher_ s).
Proof. intros Hne. case_watcher; set_solver. Qed.

Lemma index_present key m i : m !! key = Some i → index key m = (i, m).
Proof. intros H. unfold index. by rewrite H. Qed.

Lemma index_absent key m :
  m !! key = None →
  index key m = (WatchedFileInfo_default, <[key := WatchedFileInfo_default]> m).
Proof. intros H. unfold index. by rewrite H. Qed.

Lemma isRecentOpenedImage_emit env p e s :
  isRecentOpenedImage env p (emit e s) = isRecentOpenedImage env p s.
Proof. done. Qed.

(** ** Registering a file that is not cached *)

(** C6: when the resolved local cache path does not exist, [watchCachedFile]
    returns with the registry, the watch set, the deferred queue and the
    image table as they were; the trace gains the debug line and one
    warning, nothing else. *)
Theorem watchCachedFile_non_existent pf env a r p s :
  file_exists env (getLocalCacheFilePath pf r p) = false →
  let local_path := getLocalCacheFilePath pf r p in
  let s' := watchCachedFile pf env a r p s in
  watch_infos_ s' = watch_infos_ s
  ∧ watcher_ s' = watcher_ s
  ∧ deleted_files_infos_ s' = deleted_files_infos_ s
  ∧ images_ s' = images_ s
  ∧ performed s s' =
      [ QLog Debug ("[AutoUpdateManager] watch cache file " +:+ local_path);
        QLog Warning ("[AutoUpdateManager] unable to watch non-existent cache file "
                      +:+ local_path) ].
Proof.
  intros Hmissing. simpl. unfold watchCachedFile. rewrite Hmissing. simpl.
  repeat split. unfold performed. simpl.
  rewrite <- app_assoc. by rewrite drop_app_length.
Qed.

Lemma performed_app s s' l : effects s' = effects s ++ l → performed s s' = l.
Proof. intros H. unfold performed. by rewrite H, drop_app_length. Qed.

(** ** Routing a change notification *)

Lemma suppressed_emit pf env p e s :
  suppressed pf env p (emit e s) = suppressed pf env p s.
Proof. done. Qed.

(** The whole state after a notification for a registered file that is
    gone, when the event is not discarded by the hook and the watcher
    accepts the removal. *)
Lemma onFileChanged_removed_state pf env L s info :
  suppressed pf env L s = false →
  watch_infos_ s !! L = Some info →
  file_exists env L = false →
  watcher_removePath env L = true →
  onFileChanged pf env L s =
  mkState (watcher_ s ∖ {[L]}) (delete L (watch_infos_ s))
          (deleted_files_infos_ s ++ [info]) (images_ s)
          (effects s ++
           [ QLog Debug ("[AutoUpdateManager] detected cache file " +:+ L +:+ " changed");
             QLog Debug ("[AutoUpdateManager] detected cache file " +:+ L
                         +:+ " renamed or removed");
             SingleShot 5000 ]).
Proof.
  intros Hsup Hreg Hgone Hok. unfold onFileChanged, qDebug.
  rewrite suppressed_emit, Hsup, removePath_ok by done. simpl.
  rewrite bool_decide_eq_true_2 by eauto. simpl.
  rewrite (index_present _ _ _ Hreg), Hgone. simpl.
  unfold removeWatch. rewrite removePath_ok by done. simpl.
  state_simpl. f_equal; [set_solver | by rewrite <- !app_assoc].
Qed.

(** C4, as amended: a notification that the Mac hook does not discard,
    for a registered path whose file is gone, removes the registry entry,
    leaves the path disarmed, appends the entry to the deferred queue and
    schedules the re-check after 5000 ms; the trace shows no upload and no
    warning. *)
Theorem onFileChanged_file_removed pf env L s info :
  suppressed pf env L s = false →
  watch_infos_ s !! L = Some info →
  file_exists env L = false →
  watcher_removePath env L = true →
  let s' := onFileChanged pf env L s in
  watch_infos_ s' = delete L (watch_infos_ s)
  ∧ (L ∉ watcher_ s')
  ∧ deleted_files_infos_ s' = deleted_files_infos_ s ++ [info]
  ∧ performed s s' =
      [ QLog Debug ("[AutoUpdateManager] detected cache file " +:+ L +:+ " changed");
        QLog Debug ("[AutoUpdateManager] detected cache file " +:+ L
                    +:+ " renamed or removed");
        SingleShot 5000 ].
Proof.
  intros Hsup Hreg Hgone Hok. simpl.
  rewrite (onFileChanged_removed_state pf env L s info) by done.
  split_and!; simpl; try done; [set_solver | by apply performed_app].
Qed.

(** C3, as amended: the Mac hook comes first and a discarded event changes
    nothing but the debug line, so the path stays armed; otherwise the
    subscription is removed before the registry is looked at, also for a
    path that has no entry. *)
Theorem onFileChanged_hook_then_disarm pf env L s :
  watcher_removePath env L = true →
  let s0 := qDebug ("[AutoUpdateManager] detected cache file " +:+ L +:+ " changed") s in
  let s' := onFileChanged pf env L s in
  if suppressed pf env L s then s' = s0
  else (L ∉ watcher_ s')
       ∧ (watch_infos_ s !! L = None → s' = set_watcher (watcher_ s ∖ {[L]}) s0).
Proof.
  intros Hok. simpl. unfold onFileChanged, qDebug.
  rewrite suppressed_emit. destruct (suppressed pf env L s) eqn:Hsup; [done|].
  rewrite removePath_ok by done. simpl.
  destruct (watch_infos_ s !! L) as [info|] eqn:Hreg.
  - rewrite bool_decide_eq_true_2 by eauto. simpl.
    rewrite (index_present _ _ _ Hreg). split; [|done].
    destruct (file_exists env L); simpl; [set_solver|].
    unfold removeWatch. rewrite removePath_ok by done. simpl. set_solver.
  - rewrite bool_decide_eq_false_2 by (intros [? ?]; done). simpl.
    split; [set_solver | done].
Qed.

(** The upload branch: the whole registry and the request handed to the
    transfer engine. *)
Lemma onFileChanged_upload pf env L s info :
  suppressed pf env L s = false →
  watch_infos_ s !! L = Some info →
  file_exists env L = true →
  let s' := onFileChanged pf env L s in
  watch_infos_ s' = <[L := set_uploading true info]> (watch_infos_ s)
  ∧ deleted_files_infos_ s' = deleted_files_infos_ s
  ∧ StartUploadTask (mkUploadRequest (account info) (repo_id info)
                       (getParentPath pf (path_in_repo info))
                       L (getBaseName pf L) true) ∈ performed s s'
  ∧ (∀ ms, SingleShot ms ∉ performed s s').
Proof.
  intros Hsup Hreg Hex. simpl. unfold onFileChanged, qDebug.
  rewrite suppressed_emit, Hsup, removePath_watch_infos. simpl.
  rewrite bool_decide_eq_true_2 by eauto. simpl.
  rewrite (index_present _ _ _ Hreg), Hex. simpl.
  rewrite ?removePath_watch_infos, ?removePath_deleted.
  split_and!; try done.
  - case_watcher; state_simpl; rewrite <- ?app_assoc;
      (erewrite performed_app; [|simpl; reflexivity]); set_solver.
  - intros ms. case_watcher; state_simpl; rewrite <- ?app_assoc;
      (erewrite performed_app; [|simpl; reflexivity]); set_solver.
Qed.

(** ** The delayed re-check *)

(** C5, as amended: with a non-empty queue, the re-check takes the head
    entry and recomputes its cache path.  If the file is there, the entry
    is put back under that path, the path is armed, and [onFileChanged]
    runs on the result: unless the Mac hook discards the event, the entry
    is marked uploading and an upload with overwrite set is started; if
    the hook discards it, only the debug line is added, so the entry stays
    as put back, armed, with no upload.  If the file is not there, only
    the queue changes: the entry is gone and no timer is scheduled. *)
Theorem checkFileRecreated_head pf env s info rest :
  deleted_files_infos_ s = info :: rest →
  let p := getLocalCacheFilePath pf (repo_id info) (path_in_repo info) in
  let s0 := (addPath env p
               (qDebug ("[AutoUpdateManager] detected recreated file " +:+ p)
                       (set_deleted_files_infos rest s))).2 in
  let s1 := set_watch_infos (<[p := info]> (watch_infos_ s0)) s0 in
  let s' := checkFileRecreated pf env s in
  if file_exists env p then
    s' = onFileChanged pf env p s1
    ∧ deleted_files_infos_ s' = rest
    ∧ watch_infos_ s1 = <[p := info]> (watch_infos_ s)
    ∧ (watcher_addPath env p = true → p ∈ watcher_ s1)
    ∧ (suppressed pf env p s = false →
       watch_infos_ s' = <[p := set_uploading true info]> (watch_infos_ s)
       ∧ StartUploadTask (mkUploadRequest (account info) (repo_id info)
                            (getParentPath pf (path_in_repo info))
                            p (getBaseName pf p) true) ∈ performed s1 s')
    ∧ (suppressed pf env p s = true →
       s' = qDebug ("[AutoUpdateManager] detected cache file " +:+ p +:+ " changed")
                   s1)
  else s' = set_deleted_files_infos rest s ∧ performed s s' = [].
Proof.
  intros Hq. simpl. unfold checkFileRecreated. rewrite Hq.
  set (p := getLocalCacheFilePath pf (repo_id info) (path_in_repo info)).
  destruct (file_exists env p) eqn:Hex.
  - set (s0 := (addPath env p _).2).
    set (s1 := set_watch_infos _ s0).
    assert (Hreg : watch_infos_ s1 !! p = Some info) by apply lookup_insert_eq.
    assert (Hm : watch_infos_ s1 = <[p := info]> (watch_infos_ s)).
    { unfold s1, s0. simpl. by rewrite addPath_watch_infos. }
    assert (Hs1 : suppressed pf env p s1 = suppressed pf env p s).
    { unfold suppressed, isRecentOpenedImage, s1, s0. simpl.
      by rewrite addPath_images. }
    split_and!; try done.
    + destruct (suppressed pf env p s1) eqn:Hsup.
      * unfold onFileChanged, qDebug. rewrite suppressed_emit, Hsup. simpl.
        unfold s0. by rewrite addPath_deleted.
      * destruct (onFileChanged_upload pf env p s1 info Hsup Hreg Hex)
          as (_ & -> & _). simpl. unfold s0. by rewrite addPath_deleted.
    + intros Hok. unfold s1. simpl. unfold s0. by apply addPath_armed.
    + rewrite <- Hs1. intros Hsup.
      destruct (onFileChanged_upload pf env p s1 info Hsup Hreg Hex)
        as (-> & _ & Hup & _).
      split; [|done]. by rewrite Hm, insert_insert_eq.
    + rewrite <- Hs1. intros Hsup. unfold onFileChanged, qDebug.
      by rewrite suppressed_emit, Hsup.
  - split; [done|]. apply performed_app. simpl. by rewrite app_nil_r.
Qed.

Lemma checkFileRecreated_head_witness :
  let pf := sample_platform false in
  let env := sample_env [report] alice in
  let info := WatchedFileInfo_new alice "repoX" "/report.docx" in
  let s' := checkFileRecreated pf env report_deferred in
  deleted_files_infos_ report_deferred = [info]
  ∧ deleted_files_infos_ s' = []
  ∧ watch_infos_ s' = {[report := set_uploading true info]}
  ∧ StartUploadTask (mkUploadRequest alice "repoX" "/" report "report.docx" true)
    ∈ drop 5 (effects s').
Proof.
  assert (Hq : deleted_files_infos_ report_deferred
               = [WatchedFileInfo_new alice "repoX" "/report.docx"])
    by reflexivity.
  pose proof (checkFileRecreated_head (sample_platform false)
                (sample_env [report] alice) report_deferred _ _ Hq) as H.
  vm_compute in H. destruct H as (_ & Hrest & _ & _ & Hup & _).
  destruct (Hup eq_refl) as [Hreg Hstart].
  split_and!; [exact Hq | vm_compute; exact Hrest | vm_compute; exact Hreg
               | vm_compute; exact Hstart].
Defined.

Lemma watchCachedFile_non_existent_witness :
  let pf := sample_platform false in
  let env := sample_env [report] alice in
  let s' := watchCachedFile pf env alice "repoX" "/notes.txt" watching_report in
  file_exists env notes = false
  ∧ watch_infos_ s' = watch_infos_ watching_report
  ∧ watcher_ s' = {[report]}
  ∧ deleted_files_infos_ s' = []
  ∧ drop 1 (effects s') =
      [ QLog Debug "[AutoUpdateManager] watch cache file /cache/repoX/notes.txt";
        QLog Warning
          "[AutoUpdateManager] unable to watch non-existent cache file /cache/repoX/notes.txt" ].
Proof.
  pose proof (watchCachedFile_non_existent (sample_platform false)
                (sample_env [report] alice) alice "repoX" "/notes.txt"
                watching_report eq_refl) as H.
  vm_compute in H. destruct H as (Hreg & Hw & Hq & _ & Htr).
  split_and!; [reflexivity | vm_compute; exact Hreg | vm_compute; exact Hw
               | vm_compute; exact Hq | vm_compute; exact Htr].
Defined.

Lemma onFileChanged_file_removed_witness :
  let pf := sample_platform false in
  let env := sample_env [] alice in
  let info := WatchedFileInfo_new alice "repoX" "/report.docx" in
  let s' := onFileChanged pf env report watching_report in
  watch_infos_ watching_report !! report = Some info
  ∧ file_exists env report = false
  ∧ watch_infos_ s' = ∅
  ∧ (report ∉ watcher_ s')
  ∧ deleted_files_infos_ s' = [info]
  ∧ drop 1 (effects s') =
      [ QLog Debug "[AutoUpdateManager] detected cache file /cache/repoX/report.docx changed";
        QLog Debug
          "[AutoUpdateManager] detected cache file /cache/repoX/report.docx renamed or removed";
        SingleShot 5000 ].
Proof.
  assert (Hreg : watch_infos_ watching_report !! report
                 = Some (WatchedFileInfo_new alice "repoX" "/report.docx"))
    by (vm_compute; reflexivity).
  pose proof (onFileChanged_file_removed (sample_platform false)
                (sample_env [] alice) report watching_report _
                eq_refl Hreg eq_refl eq_refl) as H.
  vm_compute in H. destruct H as (Hm & Hw & Hq & Htr).
  split_and!; [exact Hreg | reflexivity | vm_compute; exact Hm | vm_compute; exact Hw
               | vm_compute; exact Hq | vm_compute; exact Htr].
Defined.

(** C3 as stated fails on a Mac build: [photo] is armed and was opened in
    a viewer a moment ago; the watcher would accept the removal, yet after
    the notification the path is still armed, since the hook returned
    before [removePath] was reached. *)
Lemma onFileChanged_suppressed_stays_armed :
  let pf := sample_platform true in
  let env := sample_env [photo] alice in
  watcher_removePath env photo = true
  ∧ photo ∈ watcher_ viewing_photo
  ∧ photo ∈ watcher_ (onFileChanged pf env photo viewing_photo).
Proof. split_and!; [reflexivity | by vm_compute | by vm_compute]. Qed.

Lemma onFileChanged_hook_then_disarm_witness :
  let pf := sample_platform true in
  let env := later (sample_env [photo] alice) in
  watcher_removePath env photo = true
  ∧ suppressed pf env photo viewing_photo = false
  ∧ photo ∈ watcher_ viewing_photo
  ∧ (photo ∉ watcher_ (onFileChanged pf env photo viewing_photo)).
Proof.
  pose proof (onFileChanged_hook_then_disarm (sample_platform true)
                (later (sample_env [photo] alice)) photo viewing_photo eq_refl) as H.
  vm_compute in H. destruct H as [H _].
  split_and!; [reflexivity | reflexivity | by vm_compute | vm_compute; exact H].
Defined.

(** C4 as stated fails on a Mac build: [photo] is registered and armed, was
    opened in a viewer a moment ago and is gone from the disk; the
    notification is discarded by the hook, so the entry stays in the
    registry, the path stays armed, nothing is queued and no timer is
    scheduled. *)
Lemma onFileChanged_suppressed_file_removed :
  let pf := sample_platform true in
  let env := sample_env [] alice in
  let s' := onFileChanged pf env photo viewing_photo in
  file_exists env photo = false
  ∧ watcher_removePath env photo = true
  ∧ watch_infos_ viewing_photo !! photo
    = Some (WatchedFileInfo_new alice "repoX" "/photo.png")
  ∧ watch_infos_ s' !! photo = Some (WatchedFileInfo_new alice "repoX" "/photo.png")
  ∧ photo ∈ watcher_ s'
  ∧ deleted_files_infos_ s' = []
  ∧ ¬ (SingleShot 5000 ∈ effects s').
Proof.
  cbv zeta.
  split_and!; [reflexivity | reflexivity | vm_compute; reflexivity
               | vm_compute; reflexivity | vm_compute; reflexivity
               | vm_compute; reflexivity |].
  vm_compute. intros H. repeat (apply elem_of_cons in H as [H|H]; [discriminate|]).
  by apply elem_of_nil in H.
Qed.

(** C5 as stated fails on a Mac build: the entry of [photo] waits in the
    queue, the file is back and was opened in a viewer a moment ago; the
    re-check puts the entry back and arms the path, but the routing is
    discarded by the hook and no upload is started. *)
Lemma checkFileRecreated_suppressed_no_upload :
  let pf := sample_platform true in
  let env := sample_env [photo] alice in
  let s' := checkFileRecreated pf env photo_reopened in
  deleted_files_infos_ photo_reopened = [WatchedFileInfo_new alice "repoX" "/photo.png"]
  ∧ file_exists env photo = true
  ∧ watch_infos_ s' !! photo = Some (WatchedFileInfo_new alice "repoX" "/photo.png")
  ∧ photo ∈ watcher_ s'
  ∧ deleted_files_infos_ s' = []
  ∧ ∀ req, ¬ (StartUploadTask req ∈ effects s').
Proof.
  cbv zeta.
  split_and!; [vm_compute; reflexivity | reflexivity | vm_compute; reflexivity
               | vm_compute; reflexivity | vm_compute; reflexivity |].
  intros req. vm_compute. intros H.
  repeat (apply elem_of_cons in H as [H|H]; [discriminate|]).
  by apply elem_of_nil in H.
Qed.

(** ** Cleaning the current account *)

Lemma elem_of_keys (m : gmap string WatchedFileInfo) k :
  k ∈ keys m ↔ is_Some (m !! k).
Proof.
  unfold keys. rewrite list_elem_of_fmap. split.
  - intros [[k' i] [-> Hin]]. apply elem_of_map_to_list in Hin. eauto.
  - intros [i Hi]. exists (k, i). split; [done|]. by apply elem_of_map_to_list.
Qed.

Lemma NoDup_keys (m : gmap string WatchedFileInfo) : NoDup (keys m).
Proof. apply NoDup_fst_map_to_list. Qed.

Lemma clean_loop_lookup cur (l : list string) :
  ∀ (m : gmap string WatchedFileInfo) k,
  NoDup l → (∀ x, x ∈ l → is_Some (m !! x)) →
  foldl (clean_step cur) m l !! k =
  if bool_decide (k ∈ l) then kept cur (m !! k) else m !! k.
Proof.
  induction l as [|x l IH]; intros m k Hnd Hdom; cbn [foldl].
  - rewrite bool_decide_eq_false_2; [done | apply not_elem_of_nil].
  - apply NoDup_cons in Hnd as [Hx Hnd].
    destruct (Hdom x) as [i Hi]; [left|].
    assert (Hstep : ∀ y, y ≠ x → clean_step cur m x !! y = m !! y).
    { intros y Hy. unfold clean_step. rewrite (index_present _ _ _ Hi).
      destruct (bool_decide _); [by rewrite lookup_delete_ne|done]. }
    rewrite IH; [|done|].
    + destruct (decide (k = x)) as [->|Hk].
      * rewrite (bool_decide_eq_false_2 (x ∈ l)) by done.
        rewrite (bool_decide_eq_true_2 (x ∈ x :: l)) by left.
        unfold clean_step. rewrite (index_present _ _ _ Hi), Hi. simpl.
        destruct (bool_decide _); [by rewrite lookup_delete_eq|done].
      * rewrite Hstep by done.
        destruct (bool_decide_reflect (k ∈ l)) as [Hin|Hin].
        -- rewrite bool_decide_eq_true_2; [done | by right].
        -- rewrite bool_decide_eq_false_2; [done|].
           rewrite elem_of_cons. tauto.
    + intros y Hy. rewrite Hstep; [apply Hdom; by right|]. intros ->. done.
Qed.

Lemma cleanCachedFile_lookup env s k :
  watch_infos_ (cleanCachedFile env s) !! k
  = kept (currentAccount env) (watch_infos_ s !! k).
Proof.
  unfold cleanCachedFile. state_simpl.
  rewrite clean_loop_lookup;
    [| apply NoDup_keys | by intros x ?%elem_of_keys].
  destruct (bool_decide_reflect (k ∈ keys (watch_infos_ s))) as [Hin|Hin]; [done|].
  rewrite elem_of_keys in Hin.
  destruct (watch_infos_ s !! k) eqn:E; [|done]. destruct Hin. eauto.
Qed.

Lemma cleanCachedFile_watcher env s : watcher_ (cleanCachedFile env s) = watcher_ s.
Proof. done. Qed.

Lemma cleanCachedFile_deleted env s :
  deleted_files_infos_ (cleanCachedFile env s) = deleted_files_infos_ s.
Proof. done. Qed.

Lemma cleanCachedFile_effects env s :
  effects (cleanCachedFile env s) =
  effects s ++ [ QLog Debug "[AutoUpdateManager] cancel all download tasks";
                 CancelAllDownloadTasks; CleanCurrentAccountCache;
                 StartCachedFilesCleaner ].
Proof. unfold cleanCachedFile. state_simpl. by rewrite <- !app_assoc. Qed.

Lemma cleanCachedFile_filter env s :
  watch_infos_ (cleanCachedFile env s)
  = filter (λ kv, account kv.2 ≠ currentAccount env) (watch_infos_ s).
Proof.
  apply map_eq. intros k. rewrite cleanCachedFile_lookup.
  destruct (watch_infos_ s !! k) as [i|] eqn:Hk; simpl.
  - destruct (bool_decide_reflect (account i = currentAccount env)) as [Ha|Ha].
    + symmetry. apply map_lookup_filter_None. right. intros i' Hi'. simpl.
      rewrite Hk in Hi'. injection Hi' as <-. tauto.
    + symmetry. by apply map_lookup_filter_Some.
  - symmetry. apply map_lookup_filter_None. by left.
Qed.

(** C9: cleaning removes from the registry exactly the entries of the
    current account; an entry of any other account keeps its key and its
    value, and no key is added. *)
Theorem cleanCachedFile_other_accounts env s :
  let A := currentAccount env in
  watch_infos_ (cleanCachedFile env s)
  = filter (λ kv, account kv.2 ≠ A) (watch_infos_ s)
  ∧ ∀ k, watch_infos_ (cleanCachedFile env s) !! k =
         match watch_infos_ s !! k with
         | Some i => if bool_decide (account i = A) then None else Some i
         | None => None
         end.
Proof.
  cbv zeta. split; [apply cleanCachedFile_filter | apply cleanCachedFile_lookup].
Qed.

(** C2: cleaning makes one bulk-cancel call to the transfer engine; with
    the engine as the spec describes it, no upload of the current account
    is in flight afterwards, the uploads of the other accounts are
    untouched, and the registry loses the entries of the current
    account. *)
Theorem cleanCachedFile_cancels_uploads env s t :
  let A := currentAccount env in
  let s' := cleanCachedFile env s in
  let t' := engine_after A t (performed s s') in
  performed s s' =
    [ QLog Debug "[AutoUpdateManager] cancel all download tasks";
      CancelAllDownloadTasks; CleanCurrentAccountCache; StartCachedFilesCleaner ]
  ∧ Forall (λ u, req_account u ≠ A) (upload_tasks t')
  ∧ (∀ u, req_account u ≠ A → (u ∈ upload_tasks t' ↔ u ∈ upload_tasks t))
  ∧ watch_infos_ s' = filter (λ kv, account kv.2 ≠ A) (watch_infos_ s).
Proof.
  cbv zeta.
  rewrite (performed_app _ _ _ (cleanCachedFile_effects env s)).
  cbn [engine_after foldl engine_step upload_tasks].
  split_and!; [done | | | apply cleanCachedFile_filter].
  - apply Forall_forall. intros u Hu.
    apply list_elem_of_In, List.filter_In in Hu as [_ Hu].
    apply negb_true_iff, bool_decide_eq_false in Hu. done.
  - intros u Hu. rewrite !list_elem_of_In, List.filter_In.
    rewrite negb_true_iff, bool_decide_eq_false. tauto.
Qed.

Example cleanCachedFile_cancels_upload_of_report :
  let env := sample_env [report] alice in
  let upload := mkUploadRequest alice "repoX" "/" report "report.docx" true in
  let before := engine_after alice (mkTransferEngine [] []) (effects uploading_report) in
  let s' := cleanCachedFile env uploading_report in
  let after := engine_after alice before (performed uploading_report s') in
  upload_tasks before = [upload]
  ∧ upload_tasks after = []
  ∧ watch_infos_ s' = ∅.
Proof. split_and!; vm_compute; reflexivity. Qed.

(** [removeWatch] takes a path out of the registry and out of the watch
    set, and touches no other path. *)
Lemma removeWatch_unregisters_and_disarms env L s :
  watcher_removePath env L = true →
  let s' := removeWatch env L s in
  watch_infos_ s' = delete L (watch_infos_ s) ∧ watcher_ s' = watcher_ s ∖ {[L]}.
Proof.
  intros Hok. cbv zeta. unfold removeWatch. by rewrite removePath_ok.
Qed.

Lemma removeWatch_keeps_agreement env L s :
  watcher_removePath env L = true →
  armed_iff_registered s → armed_iff_registered (removeWatch env L s).
Proof.
  intros Hok Hiff p.
  destruct (removeWatch_unregisters_and_disarms env L s Hok) as [-> ->].
  rewrite elem_of_difference, elem_of_singleton, lookup_delete_is_Some, (Hiff p).
  naive_solver.
Qed.

(** C1: the registry and the watch set fall apart when the account is
    cleaned: an armed entry of the current account leaves the registry
    while its path stays in the watch set, as [cleanCachedFile] calls
    [watch_infos_.remove] and never [removePath]. *)
Theorem cleanCachedFile_leaves_watch_armed env s L info :
  watch_infos_ s !! L = Some info →
  account info = currentAccount env →
  L ∈ watcher_ s →
  let s' := cleanCachedFile env s in
  watch_infos_ s' !! L = None ∧ L ∈ watcher_ s' ∧ ¬ armed_iff_registered s'.
Proof.
  intros Hreg Hacc Harmed. cbv zeta.
  assert (Hgone : watch_infos_ (cleanCachedFile env s) !! L = None).
  { rewrite cleanCachedFile_lookup, Hreg. simpl.
    by rewrite bool_decide_eq_true_2. }
  split_and!; [done | done |].
  intros Hiff. destruct (proj1 (Hiff L)) as [i Hi]; [done|]. congruence.
Qed.

Lemma cleanCachedFile_leaves_watch_armed_witness :
  let env := sample_env [report] alice in
  let s' := cleanCachedFile env watching_report in
  armed_iff_registered watching_report
  ∧ watch_infos_ s' = ∅
  ∧ watcher_ s' = {[report]}
  ∧ ¬ armed_iff_registered s'.
Proof.
  assert (Hreg : watch_infos_ watching_report !! report
                 = Some (WatchedFileInfo_new alice "repoX" "/report.docx"))
    by (vm_compute; reflexivity).
  assert (Harmed : report ∈ watcher_ watching_report) by (by vm_compute).
  destruct (cleanCachedFile_leaves_watch_armed (sample_env [report] alice)
              watching_report report _ Hreg eq_refl Harmed) as (_ & _ & Hbroken).
  split_and!; [| by vm_compute | by vm_compute | exact Hbroken].
  intros p.
  replace (watcher_ watching_report) with ({[report]} : gset string)
    by (by vm_compute).
  replace (watch_infos_ watching_report)
    with ({[report := WatchedFileInfo_new alice "repoX" "/report.docx"]}
          : gmap string WatchedFileInfo) by (by vm_compute).
  rewrite elem_of_singleton, lookup_singleton_is_Some. naive_solver.
Defined.

(** ** The end of an upload *)

Lemma onUpdateTaskFinished_success_state pf env task s :
  watcher_addPath env (localFilePath task) = true →
  let L := localFilePath task in
  onUpdateTaskFinished pf env (Some task) true s =
  mkState (watcher_ s ∪ {[L]})
          (<[L := set_uploading false
                    (default WatchedFileInfo_default (watch_infos_ s !! L))]>
             (watch_infos_ s))
          (deleted_files_infos_ s) (images_ s)
          (effects s ++
           [ QLog Debug ("[AutoUpdateManager] uploaded new version of file " +:+ L);
             ShowMessage (UploadSuccess (fileName pf L)) (repoId task);
             FileUpdated (repoId task) (path task) ]).
Proof.
  intros Hok. cbv zeta. unfold onUpdateTaskFinished.
  rewrite addPath_ok by done. state_simpl.
  destruct (watch_infos_ s !! localFilePath task) as [i|] eqn:Hreg.
  - rewrite (index_present _ _ _ Hreg). simpl. by rewrite <- !app_assoc.
  - rewrite (index_absent _ _ Hreg). simpl.
    by rewrite insert_insert_eq, <- !app_assoc.
Qed.

Lemma onUpdateTaskFinished_failure_state pf env task s :
  let L := localFilePath task in
  onUpdateTaskFinished pf env (Some task) false s =
  mkState (watcher_ s) (delete L (watch_infos_ s))
          (deleted_files_infos_ s) (images_ s)
          (effects s ++
           [ QLog Warning ("[AutoUpdateManager] failed to upload new version of file "
                           +:+ L);
             ShowMessage (UploadFailure (fileName pf L)) (repoId task) ]).
Proof. cbv zeta. unfold onUpdateTaskFinished. state_simpl. by rewrite <- !app_assoc. Qed.



(** C10: a success reported for a path that has no registry entry arms the
    path and puts a default-constructed entry under it: empty account,
    repository and path, [uploading] false. *)
Theorem onUpdateTaskFinished_success_unregistered pf env task s :
  watch_infos_ s !! localFilePath task = None →
  watcher_addPath env (localFilePath task) = true →
  let L := localFilePath task in
  let s' := onUpdateTaskFinished pf env (Some task) true s in
  (L ∈ watcher_ s')
  ∧ watch_infos_ s' = <[L := WatchedFileInfo_default]> (watch_infos_ s)
  ∧ watch_infos_ s' !! L = Some (mkWatchedFileInfo (mkAccount "") "" "" false).
Proof.
  intros Hreg Hok. cbv zeta.
  rewrite (onUpdateTaskFinished_success_state pf env task s Hok), Hreg. simpl.
  split_and!; [set_solver | done | apply lookup_insert_eq].
Qed.

Lemma onUpdateTaskFinished_success_unregistered_witness :
  let pf := sample_platform false in
  let env := sample_env [report] alice in
  let task := mkFileUploadTask report "repoX" "/report.docx" in
  let cleaned := cleanCachedFile env uploading_report in
  let s' := onUpdateTaskFinished pf env (Some task) true cleaned in
  watch_infos_ cleaned = ∅
  ∧ (report ∉ watcher_ cleaned)
  ∧ report ∈ watcher_ s'
  ∧ watch_infos_ s' = {[report := mkWatchedFileInfo (mkAccount "") "" "" false]}.
Proof.
  pose proof (onUpdateTaskFinished_success_unregistered (sample_platform false)
                (sample_env [report] alice)
                (mkFileUploadTask report "repoX" "/report.docx")
                (cleanCachedFile (sample_env [report] alice) uploading_report)
                eq_refl eq_refl) as H.
  vm_compute in H. destruct H as (Harm & Hreg & _).
  split_and!; [by vm_compute | by vm_compute | vm_compute; exact Harm
               | vm_compute; exact Hreg].
Defined.

(** ** Registry and deferred queue *)

Lemma in_deferred_list_app r p q i :
  in_deferred_list r p (q ++ [i])
  = in_deferred_list r p q
    || (bool_decide (r = repo_id i) && bool_decide (p = path_in_repo i)).
Proof. unfold in_deferred_list. rewrite existsb_app. simpl. by rewrite orb_false_r. Qed.

Lemma in_deferred_list_pairs r p q :
  in_deferred_list r p q = true ↔ (r, p) ∈ pair_of <$> q.
Proof.
  induction q as [|i q IH]; simpl.
  - split; [done | by intros ?%elem_of_nil].
  - rewrite orb_true_iff, andb_true_iff, !bool_decide_eq_true, IH, elem_of_cons.
    unfold pair_of at 1. split.
    + intros [[-> ->]|H]; [by left | by right].
    + intros [[= -> ->]|H]; [by left | by right].
Qed.

Lemma in_deferred_list_tail r p i q :
  in_deferred_list r p (i :: q) = false → in_deferred_list r p q = false.
Proof. simpl. by intros [_ H]%orb_false_iff. Qed.

(** The registry and the queue after [onFileChanged], whatever the
    watcher answers. *)
Lemma onFileChanged_registry_queue pf env L s :
  let s' := onFileChanged pf env L s in
  (watch_infos_ s', deleted_files_infos_ s') =
  if suppressed pf env L s then (watch_infos_ s, deleted_files_infos_ s)
  else match watch_infos_ s !! L with
       | None => (watch_infos_ s, deleted_files_infos_ s)
       | Some info =>
         if file_exists env L
         then (<[L := set_uploading true info]> (watch_infos_ s), deleted_files_infos_ s)
         else (delete L (watch_infos_ s), deleted_files_infos_ s ++ [info])
       end.
Proof.
  cbv zeta. unfold onFileChanged, qDebug. rewrite suppressed_emit.
  destruct (suppressed pf env L s); [done|].
  rewrite removePath_watch_infos. cbn [watch_infos_ emit].
  destruct (watch_infos_ s !! L) as [info|] eqn:Hreg.
  - rewrite bool_decide_eq_true_2 by eauto. cbn [negb].
    rewrite (index_present _ _ _ Hreg).
    destruct (file_exists env L); cbn [negb].
    + cbn. by rewrite ?removePath_watch_infos, ?removePath_deleted.
    + unfold removeWatch. state_simpl.
      by rewrite ?removePath_watch_infos, ?removePath_deleted.
  - rewrite bool_decide_eq_false_2 by (intros [? ?]; done). cbn [negb].
    by rewrite ?removePath_watch_infos, ?removePath_deleted.
Qed.

Lemma relationship_shrink pf s s' :
  (∀ k i, watch_infos_ s' !! k = Some i → watch_infos_ s !! k = Some i) →
  deleted_files_infos_ s' = deleted_files_infos_ s →
  relationship pf s → relationship pf s'.
Proof.
  intros Hsub Hq (Hkeyed & Hexcl & Hnd). unfold relationship, keyed, exclusive.
  rewrite Hq. split_and!; [| |done].
  - intros k i Hk. by apply (Hkeyed k i), Hsub.
  - intros k i Hk. by apply (Hexcl k i), Hsub.
Qed.

(** Replacing an entry by one with the same repository and path. *)
Lemma relationship_update pf s s' L i i' :
  watch_infos_ s !! L = Some i →
  pair_of i' = pair_of i →
  watch_infos_ s' = <[L := i']> (watch_infos_ s) →
  deleted_files_infos_ s' = deleted_files_infos_ s →
  relationship pf s → relationship pf s'.
Proof.
  intros Hreg [= Hr Hp] Hm Hq (Hkeyed & Hexcl & Hnd).
  unfold relationship, keyed, exclusive. rewrite Hq, Hm.
  split_and!; [| |done]; apply map_Forall_insert_2; try done; rewrite Hr, Hp.
  - exact (Hkeyed L i Hreg).
  - exact (Hexcl L i Hreg).
Qed.

Lemma relationship_defer pf s s' L info :
  watch_infos_ s !! L = Some info →
  watch_infos_ s' = delete L (watch_infos_ s) →
  deleted_files_infos_ s' = deleted_files_infos_ s ++ [info] →
  relationship pf s → relationship pf s'.
Proof.
  intros Hreg Hm Hq (Hkeyed & Hexcl & Hnd).
  unfold relationship, keyed, exclusive. rewrite Hq, Hm. split_and!.
  - intros k i [_ Hk]%lookup_delete_Some. exact (Hkeyed k i Hk).
  - intros k i [Hne Hk]%lookup_delete_Some. rewrite in_deferred_list_app.
    rewrite (Hexcl k i Hk). simpl.
    destruct (bool_decide_reflect (repo_id i = repo_id info)) as [Hr|]; [|done].
    destruct (bool_decide_reflect (path_in_repo i = path_in_repo info)) as [Hp|];
      [|done].
    destruct Hne. rewrite (Hkeyed k i Hk), (Hkeyed L info Hreg). by rewrite Hr, Hp.
  - rewrite fmap_app. apply NoDup_app. split_and!; [done| |apply NoDup_singleton].
    intros rp Hin ->%list_elem_of_singleton.
    apply in_deferred_list_pairs in Hin. by rewrite (Hexcl L info Hreg) in Hin.
Qed.

Lemma relationship_same pf s s' :
  watch_infos_ s' = watch_infos_ s →
  deleted_files_infos_ s' = deleted_files_infos_ s →
  relationship pf s → relationship pf s'.
Proof. intros Hm Hq. apply relationship_shrink; [by rewrite Hm | done]. Qed.

Lemma onFileChanged_relationship pf env L s :
  relationship pf s → relationship pf (onFileChanged pf env L s).
Proof.
  intros Hrel. pose proof (onFileChanged_registry_queue pf env L s) as H.
  cbv zeta in H.
  destruct (suppressed pf env L s);
    [injection H as Hm Hq; by apply (relationship_same pf s) |].
  destruct (watch_infos_ s !! L) as [info|] eqn:Hreg;
    [|injection H as Hm Hq; by apply (relationship_same pf s)].
  destruct (file_exists env L); injection H as Hm Hq.
  - by apply (relationship_update pf s _ L info (set_uploading true info)).
  - by apply (relationship_defer pf s _ L info).
Qed.

Lemma watchCachedFile_registry_queue pf env a r p s :
  let s' := watchCachedFile pf env a r p s in
  deleted_files_infos_ s' = deleted_files_infos_ s
  ∧ watch_infos_ s' =
      if file_exists env (getLocalCacheFilePath pf r p)
         && negb (in_deferred_list r p (deleted_files_infos_ s))
      then <[getLocalCacheFilePath pf r p := WatchedFileInfo_new a r p]> (watch_infos_ s)
      else watch_infos_ s.
Proof.
  cbv zeta. unfold watchCachedFile.
  destruct (file_exists env _); [|done]. cbn [negb andb qDebug emit deleted_files_infos_].
  destruct (in_deferred_list r p (deleted_files_infos_ s)); [done|].
  state_simpl. by rewrite addPath_deleted, addPath_watch_infos.
Qed.

Lemma watchCachedFile_deferred_noop pf env a r p s :
  in_deferred_list r p (deleted_files_infos_ s) = true →
  let s' := watchCachedFile pf env a r p s in
  watch_infos_ s' = watch_infos_ s
  ∧ deleted_files_infos_ s' = deleted_files_infos_ s
  ∧ watcher_ s' = watcher_ s.
Proof.
  intros Hq. cbv zeta. unfold watchCachedFile.
  destruct (file_exists env _); [|done]. cbn [negb qDebug emit deleted_files_infos_].
  by rewrite Hq.
Qed.

Lemma watchCachedFile_exclusive pf env a r p s :
  exclusive s → exclusive (watchCachedFile pf env a r p s).
Proof.
  intros Hexcl. destruct (watchCachedFile_registry_queue pf env a r p s) as [Hq Hm].
  unfold exclusive. rewrite Hq, Hm.
  destruct (file_exists env _); [|done].
  destruct (in_deferred_list r p (deleted_files_infos_ s)) eqn:Hin; [done|].
  by apply map_Forall_insert_2.
Qed.

Lemma watchCachedFile_relationship pf env a r p s :
  relationship pf s → relationship pf (watchCachedFile pf env a r p s).
Proof.
  intros (Hkeyed & Hexcl & Hnd).
  split_and!; [|by apply watchCachedFile_exclusive|].
  - destruct (watchCachedFile_registry_queue pf env a r p s) as [_ Hm].
    unfold keyed. rewrite Hm. destruct (_ && _); [|done].
    by apply map_Forall_insert_2.
  - by destruct (watchCachedFile_registry_queue pf env a r p s) as [-> _].
Qed.

Lemma cleanCachedFile_relationship pf env s :
  relationship pf s → relationship pf (cleanCachedFile env s).
Proof.
  apply relationship_shrink; [|done]. intros k i.
  rewrite cleanCachedFile_lookup. destruct (watch_infos_ s !! k); [|done].
  simpl. by destruct (bool_decide _).
Qed.

Lemma removeWatch_relationship pf env L s :
  relationship pf s → relationship pf (removeWatch env L s).
Proof.
  apply relationship_shrink; unfold removeWatch.
  - intros k i. rewrite removePath_watch_infos. simpl.
    by intros [_ ?]%lookup_delete_Some.
  - by rewrite removePath_deleted.
Qed.

Lemma onUpdateTaskFinished_relationship pf env sender success s :
  timely (OnUpdateTaskFinished sender success) s →
  relationship pf s → relationship pf (onUpdateTaskFinished pf env sender success s).
Proof.
  intros Htimely Hrel. destruct sender as [task|]; [|done].
  destruct success; simpl in Htimely.
  - destruct Htimely as [i Hreg]. unfold onUpdateTaskFinished.
    rewrite addPath_watch_infos. state_simpl. rewrite (index_present _ _ _ Hreg).
    apply (relationship_update pf s _ (localFilePath task) i (set_uploading false i));
      try done.
    simpl. by rewrite addPath_deleted.
  - apply (relationship_shrink pf s); [|done|done].
    intros k i. simpl. by intros [_ ?]%lookup_delete_Some.
Qed.

Lemma checkFileRecreated_relationship pf env s :
  relationship pf s → relationship pf (checkFileRecreated pf env s).
Proof.
  intros (Hkeyed & Hexcl & Hnd). unfold checkFileRecreated.
  destruct (deleted_files_infos_ s) as [|info rest] eqn:Hq; [by rewrite <- Hq in Hnd|].
  rewrite fmap_cons in Hnd. apply NoDup_cons in Hnd as [Hfresh Hnd].
  assert (Hexcl' : map_Forall (λ _ i, in_deferred_list (repo_id i) (path_in_repo i) rest
                                      = false) (watch_infos_ s)).
  { intros k i Hk. unfold exclusive in Hexcl. rewrite Hq in Hexcl.
    exact (in_deferred_list_tail _ _ _ _ (Hexcl k i Hk)). }
  destruct (file_exists env _).
  - apply onFileChanged_relationship. unfold relationship, keyed, exclusive.
    state_simpl. rewrite addPath_watch_infos, addPath_deleted. simpl.
    split_and!; [| |done]; apply map_Forall_insert_2; try done.
    destruct (in_deferred_list _ _ rest) eqn:Hin; [|done].
    by apply in_deferred_list_pairs in Hin.
  - by split_and!.
Qed.

Lemma call_relationship pf env c s :
  timely c s → relationship pf s → relationship pf (call pf env c s).
Proof.
  intros Htimely Hrel. destruct c; simpl.
  - by apply cleanCachedFile_relationship.
  - by apply watchCachedFile_relationship.
  - by apply cleanCachedFile_relationship.
  - by apply onFileChanged_relationship.
  - by apply onUpdateTaskFinished_relationship.
  - by apply removeWatch_relationship.
  - by apply checkFileRecreated_relationship.
  - unfold fileOpened. destruct (_ || _); [|done].
    by apply (relationship_same pf s).
Qed.

Lemma initial_relationship pf : relationship pf initial.
Proof.
  split_and!; [apply map_Forall_empty | apply map_Forall_empty | apply NoDup_nil_2].
Qed.

Lemma run_relationship pf steps :
  ∀ s, timely_run pf steps s → relationship pf s → relationship pf (run pf steps s).
Proof.
  induction steps as [|[env c] steps IH]; intros s Htimely Hrel; [done|].
  destruct Htimely as [Hc Hrest]. simpl.
  apply IH; [done|]. by apply call_relationship.
Qed.

(** Registering a pair that waits in the deferred queue changes neither
    the registry nor the queue nor the watch set; so [watchCachedFile]
    never puts a queued pair into the registry, and along every run from
    the constructor in which each successful completion arrives for a path
    that still has its registry entry, no pair is in the registry and in
    the queue at once. *)
Theorem watchCachedFile_deferred_exclusive pf :
  (∀ env a r p s,
     in_deferred_list r p (deleted_files_infos_ s) = true →
     let s' := watchCachedFile pf env a r p s in
     watch_infos_ s' = watch_infos_ s
     ∧ size (watch_infos_ s') = size (watch_infos_ s)
     ∧ deleted_files_infos_ s' = deleted_files_infos_ s
     ∧ watcher_ s' = watcher_ s)
  ∧ (∀ env a r p s, exclusive s → exclusive (watchCachedFile pf env a r p s))
  ∧ (∀ steps, timely_run pf steps initial → exclusive (run pf steps initial)).
Proof.
  split_and!.
  - intros env a r p s Hq.
    destruct (watchCachedFile_deferred_noop pf env a r p s Hq) as (Hm & Hd & Hw).
    cbv zeta. by rewrite Hm.
  - apply watchCachedFile_exclusive.
  - intros steps Htimely.
    by destruct (run_relationship pf steps initial Htimely (initial_relationship pf))
      as (_ & Hexcl & _).
Qed.

Lemma watchCachedFile_deferred_exclusive_witness :
  let pf := sample_platform false in
  let env := sample_env [report] alice in
  let info := WatchedFileInfo_new alice "repoX" "/report.docx" in
  let s' := watchCachedFile pf env alice "repoX" "/report.docx" report_deferred in
  file_exists env report = true
  ∧ deleted_files_infos_ report_deferred = [info]
  ∧ watch_infos_ s' = ∅
  ∧ deleted_files_infos_ s' = [info]
  ∧ watcher_ s' = ∅
  ∧ timely_run pf save_by_replace initial
  ∧ exclusive (run pf save_by_replace initial).
Proof.
  destruct (watchCachedFile_deferred_exclusive (sample_platform false))
    as (Hnoop & _ & Hrun).
  pose proof (Hnoop (sample_env [report] alice) alice "repoX" "/report.docx"
                    report_deferred eq_refl) as H.
  vm_compute in H. destruct H as (Hm & _ & Hq & Hw).
  assert (Htimely : timely_run (sample_platform false) save_by_replace initial).
  { repeat split. vm_compute. eauto. }
  split_and!; [reflexivity | reflexivity | vm_compute; exact Hm | vm_compute; exact Hq
               | vm_compute; exact Hw | exact Htimely | exact (Hrun _ Htimely)].
Defined.

(** In the run [late_completions] both uploads end well after the account
    was cleaned, so each completion puts a default entry (empty repository
    and path) into the registry; the first one is moved to the queue when
    its file vanishes, and after the second one the empty pair is in the
    registry and in the queue at once. *)
Lemma late_completions_not_exclusive :
  let s := run (sample_platform false) late_completions initial in
  watch_infos_ s !! notes = Some WatchedFileInfo_default
  ∧ deleted_files_infos_ s = [WatchedFileInfo_default]
  ∧ in_deferred_list (repo_id WatchedFileInfo_default)
                     (path_in_repo WatchedFileInfo_default)
                     (deleted_files_infos_ s) = true
  ∧ ¬ exclusive s.
Proof.
  cbv zeta.
  assert (Hreg : watch_infos_ (run (sample_platform false) late_completions initial)
                 !! notes = Some WatchedFileInfo_default) by (by vm_compute).
  split_and!; [done | by vm_compute | by vm_compute |].
  intros Hexcl. specialize (Hexcl notes _ Hreg). by vm_compute in Hexcl.
Qed.

(** ** The sample worlds at work *)

Example uploading_report_registry :
  watch_infos_ uploading_report
  = {[report := mkWatchedFileInfo alice "repoX" "/report.docx" true]}
  ∧ watcher_ uploading_report = ∅
  ∧ effects uploading_report =
      [ QLog Debug "[AutoUpdateManager] watch cache file /cache/repoX/report.docx";
        QLog Debug "[AutoUpdateManager] detected cache file /cache/repoX/report.docx changed";
        QLog Debug "[AutoUpdateManager] start uploading new version of file /cache/repoX/report.docx";
        StartUploadTask (mkUploadRequest alice "repoX" "/" report "report.docx" true) ].
Proof. split_and!; vm_compute; reflexivity. Qed.

Example save_by_replace_result :
  let s := run (sample_platform false) save_by_replace initial in
  watch_infos_ s = {[report := mkWatchedFileInfo alice "repoX" "/report.docx" false]}
  ∧ watcher_ s = {[report]}
  ∧ deleted_files_infos_ s = []
  ∧ uploads_started s
    = [ mkUploadRequest alice "repoX" "/" report "report.docx" true ].
Proof. split_and!; vm_compute; reflexivity. Qed.

Example recheck_on_empty_queue :
  checkFileRecreated (sample_platform false) (sample_env [report] alice) watching_report
  = watching_report.
Proof. reflexivity. Qed.

Example clean_keeps_other_account :
  let env := sample_env [report; notes] bob in
  let pf := sample_platform false in
  let s := watchCachedFile pf env bob "repoX" "/notes.txt" watching_report in
  watch_infos_ (cleanCachedFile env s)
  = {[report := WatchedFileInfo_new alice "repoX" "/report.docx"]}.
Proof. vm_compute; reflexivity. Qed.

(** ** Entries that name a file *)

Lemma onUpdateTaskFinished_registry pf env task s :
  let L := localFilePath task in
  watch_infos_ (onUpdateTaskFinished pf env (Some task) true s)
  = <[L := set_uploading false (default WatchedFileInfo_default (watch_infos_ s !! L))]>
      (watch_infos_ s).
Proof.
  cbv zeta. unfold onUpdateTaskFinished.
  set (s1 := (addPath env (localFilePath task) _).2).
  assert (Hm : watch_infos_ s1 = watch_infos_ s)
    by (unfold s1; by rewrite addPath_watch_infos).
  rewrite Hm. destruct (watch_infos_ s !! localFilePath task) as [i|] eqn:Hreg.
  - by rewrite (index_present _ _ _ Hreg).
  - rewrite (index_absent _ _ Hreg). cbn [watch_infos_ set_watch_infos default id].
    by rewrite insert_insert_eq.
Qed.

Lemma onUpdateTaskFinished_queue pf env sender success s :
  deleted_files_infos_ (onUpdateTaskFinished pf env sender success s)
  = deleted_files_infos_ s.
Proof.
  unfold onUpdateTaskFinished. destruct sender as [task|]; [|done].
  destruct success; [|done]. destruct (index _ _) as [info m].
  cbn [deleted_files_infos_ set_watch_infos]. by rewrite addPath_deleted.
Qed.

Lemma elem_of_real_pairs rp q :
  rp ∈ real_pairs q ↔ rp ≠ ("", "") ∧ rp ∈ pair_of <$> q.
Proof. unfold real_pairs. by rewrite list_elem_of_filter. Qed.

Lemma real_pairs_app q1 q2 : real_pairs (q1 ++ q2) = real_pairs q1 ++ real_pairs q2.
Proof. unfold real_pairs. by rewrite fmap_app, filter_app. Qed.

Lemma relationship_real_shrink pf s s' :
  (∀ k i, watch_infos_ s' !! k = Some i → watch_infos_ s !! k = Some i) →
  deleted_files_infos_ s' = deleted_files_infos_ s →
  relationship_real pf s → relationship_real pf s'.
Proof.
  intros Hsub Hq (Hkeyed & Hexcl & Hnd).
  unfold relationship_real, keyed_real, exclusive_real.
  rewrite Hq. split_and!; [| |done].
  - intros k i Hk. by apply (Hkeyed k i), Hsub.
  - intros k i Hk. by apply (Hexcl k i), Hsub.
Qed.

Lemma relationship_real_same pf s s' :
  watch_infos_ s' = watch_infos_ s →
  deleted_files_infos_ s' = deleted_files_infos_ s →
  relationship_real pf s → relationship_real pf s'.
Proof. intros Hm Hq. apply relationship_real_shrink; [by rewrite Hm | done]. Qed.

(** Putting [i] under [L]: if [i] names a file, [L] is its cache path and
    its pair is not queued. *)
Lemma relationship_real_insert pf s s' L i :
  (pair_of i ≠ ("", "") →
   L = getLocalCacheFilePath pf (repo_id i) (path_in_repo i)
   ∧ in_deferred_list (repo_id i) (path_in_repo i) (deleted_files_infos_ s) = false) →
  watch_infos_ s' = <[L := i]> (watch_infos_ s) →
  deleted_files_infos_ s' = deleted_files_infos_ s →
  relationship_real pf s → relationship_real pf s'.
Proof.
  intros Hi Hm Hq (Hkeyed & Hexcl & Hnd).
  unfold relationship_real, keyed_real, exclusive_real. rewrite Hq, Hm.
  split_and!; [| |done]; apply map_Forall_insert_2; try done;
    intros Hreal; by destruct (Hi Hreal).
Qed.

Lemma relationship_real_defer pf s s' L info :
  watch_infos_ s !! L = Some info →
  watch_infos_ s' = delete L (watch_infos_ s) →
  deleted_files_infos_ s' = deleted_files_infos_ s ++ [info] →
  relationship_real pf s → relationship_real pf s'.
Proof.
  intros Hreg Hm Hq (Hkeyed & Hexcl & Hnd).
  unfold relationship_real, keyed_real, exclusive_real. rewrite Hq, Hm. split_and!.
  - intros k i [_ Hk]%lookup_delete_Some. exact (Hkeyed k i Hk).
  - intros k i [Hne Hk]%lookup_delete_Some Hreal. rewrite in_deferred_list_app.
    rewrite (Hexcl k i Hk Hreal). simpl.
    destruct (bool_decide_reflect (repo_id i = repo_id info)) as [Hr|]; [|done].
    destruct (bool_decide_reflect (path_in_repo i = path_in_repo info)) as [Hp|];
      [|done].
    assert (Hreal' : pair_of info ≠ ("", "")).
    { unfold pair_of in *. by rewrite <- Hr, <- Hp. }
    destruct Hne. rewrite (Hkeyed k i Hk Hreal), (Hkeyed L info Hreg Hreal').
    by rewrite Hr, Hp.
  - rewrite real_pairs_app. apply NoDup_app. split_and!; [done| |].
    + intros rp Hin Hin'. apply elem_of_real_pairs in Hin as [Hreal Hin].
      apply elem_of_real_pairs in Hin' as [_ Hin'].
      rewrite list_fmap_singleton in Hin'. apply list_elem_of_singleton in Hin'.
      subst rp. apply in_deferred_list_pairs in Hin.
      by rewrite (Hexcl L info Hreg Hreal) in Hin.
    + unfold real_pairs. rewrite list_fmap_singleton.
      apply NoDup_filter, NoDup_singleton.
Qed.

Lemma relationship_real_dequeue pf s s' info rest :
  deleted_files_infos_ s = info :: rest →
  watch_infos_ s' = watch_infos_ s →
  deleted_files_infos_ s' = rest →
  relationship_real pf s →
  relationship_real pf s'
  ∧ (pair_of info ≠ ("", "") →
     in_deferred_list (repo_id info) (path_in_repo info) rest = false).
Proof.
  intros Hq Hm Hq' (Hkeyed & Hexcl & Hnd).
  unfold relationship_real, keyed_real, exclusive_real in *.
  rewrite Hq in Hexcl, Hnd. rewrite Hm, Hq'.
  unfold real_pairs in Hnd. rewrite fmap_cons, filter_cons in Hnd.
  split; [split_and!|].
  - done.
  - intros k i Hk Hreal. exact (in_deferred_list_tail _ _ _ _ (Hexcl k i Hk Hreal)).
  - destruct (decide (pair_of info ≠ ("", ""))); [by apply NoDup_cons in Hnd as [_ ?]|done].
  - intros Hreal. rewrite decide_True in Hnd by done.
    apply NoDup_cons in Hnd as [Hfresh _].
    destruct (in_deferred_list _ _ rest) eqn:Hin; [|done].
    destruct Hfresh. apply elem_of_real_pairs. split; [done|].
    by apply in_deferred_list_pairs.
Qed.

Lemma onFileChanged_relationship_real pf env L s :
  relationship_real pf s → relationship_real pf (onFileChanged pf env L s).
Proof.
  intros Hrel. pose proof (onFileChanged_registry_queue pf env L s) as H.
  cbv zeta in H.
  destruct (suppressed pf env L s);
    [injection H as Hm Hq; by apply (relationship_real_same pf s) |].
  destruct (watch_infos_ s !! L) as [info|] eqn:Hreg;
    [|injection H as Hm Hq; by apply (relationship_real_same pf s)].
  destruct (file_exists env L); injection H as Hm Hq.
  - apply (relationship_real_insert pf s _ L (set_uploading true info)); try done.
    destruct Hrel as (Hkeyed & Hexcl & _). intros Hreal.
    split; [exact (Hkeyed L info Hreg Hreal) | exact (Hexcl L info Hreg Hreal)].
  - by apply (relationship_real_defer pf s _ L info).
Qed.

Lemma call_relationship_real pf env c s :
  relationship_real pf s → relationship_real pf (call pf env c s).
Proof.
  intros Hrel. destruct c; cbn [call start].
  - apply (relationship_real_shrink pf s); [|done|done]. intros k i.
    rewrite cleanCachedFile_lookup. destruct (watch_infos_ s !! k); [|done].
    simpl. by destruct (bool_decide _).
  - destruct (watchCachedFile_registry_queue pf env a r p s) as [Hq Hm].
    destruct (file_exists env _ && negb _) eqn:Hc;
      [|by apply (relationship_real_same pf s)].
    apply andb_true_iff in Hc as [_ Hc%negb_true_iff].
    apply (relationship_real_insert pf s _ (getLocalCacheFilePath pf r p)
             (WatchedFileInfo_new a r p)); [by intros _ | done | done | done].
  - apply (relationship_real_shrink pf s); [|done|done]. intros k i.
    rewrite cleanCachedFile_lookup. destruct (watch_infos_ s !! k); [|done].
    simpl. by destruct (bool_decide _).
  - by apply onFileChanged_relationship_real.
  - destruct sender as [task|]; [|done]. destruct success.
    + apply (relationship_real_insert pf s _ (localFilePath task)
               (set_uploading false
                  (default WatchedFileInfo_default
                           (watch_infos_ s !! localFilePath task))));
        [|apply onUpdateTaskFinished_registry|apply onUpdateTaskFinished_queue|done].
      destruct (watch_infos_ s !! localFilePath task) as [i|] eqn:Hreg; [|done].
      destruct Hrel as (Hkeyed & Hexcl & _). intros Hreal.
      split; [exact (Hkeyed _ i Hreg Hreal) | exact (Hexcl _ i Hreg Hreal)].
    + apply (relationship_real_shrink pf s); [|done|done].
      intros k i. simpl. by intros [_ ?]%lookup_delete_Some.
  - apply (relationship_real_shrink pf s); unfold removeWatch.
    + intros k i. rewrite removePath_watch_infos. simpl.
      by intros [_ ?]%lookup_delete_Some.
    + by rewrite removePath_deleted.
    + done.
  - destruct (deleted_files_infos_ s) as [|info rest] eqn:Hq.
    { unfold checkFileRecreated. by rewrite Hq. }
    unfold checkFileRecreated. rewrite Hq.
    destruct (relationship_real_dequeue pf s (set_deleted_files_infos rest s)
                info rest Hq eq_refl eq_refl Hrel) as [Hrel' Hfresh].
    destruct (file_exists env _); [|done].
    apply onFileChanged_relationship_real.
    match goal with
    | |- relationship_real pf ?x =>
      apply (relationship_real_insert pf (set_deleted_files_infos rest s) x
               (getLocalCacheFilePath pf (repo_id info) (path_in_repo info)) info)
    end; [| | |done].
    + intros Hreal. split; [done | by apply Hfresh].
    + cbn [watch_infos_ set_watch_infos]. by rewrite addPath_watch_infos.
    + cbn [deleted_files_infos_ set_watch_infos]. by rewrite addPath_deleted.
  - unfold fileOpened. destruct (_ || _); [|done].
    by apply (relationship_real_same pf s).
Qed.

(** Along every run from the constructor, no entry that names a file has
    its pair in the registry and in the deferred queue at once; only the
    empty pair of a default-constructed entry can be in both. *)
Theorem exclusive_real_all_runs pf steps :
  exclusive_real (run pf steps initial).
Proof.
  assert (Hgen : ∀ s, relationship_real pf s → relationship_real pf (run pf steps s)).
  { induction steps as [|[env c] steps IH]; intros s Hrel; [done|].
    cbn [run]. apply IH. by apply call_relationship_real. }
  assert (H0 : relationship_real pf initial).
  { split_and!; [apply map_Forall_empty | apply map_Forall_empty | apply NoDup_nil_2]. }
  by destruct (Hgen initial H0) as (_ & Hexcl & _).
Qed.

(** C7: [watchCachedFile] refuses a queued pair, but a success reported for
    a path that has no registry entry makes [onUpdateTaskFinished] insert
    a default entry with the empty repository and path; if such an entry
    already waits in the deferred queue, the empty pair is in the registry
    and in the queue at once. *)
Theorem late_success_breaks_exclusive pf env task s :
  watch_infos_ s !! localFilePath task = None →
  in_deferred_list "" "" (deleted_files_infos_ s) = true →
  let s' := onUpdateTaskFinished pf env (Some task) true s in
  watch_infos_ s' !! localFilePath task = Some WatchedFileInfo_default
  ∧ deleted_files_infos_ s' = deleted_files_infos_ s
  ∧ ¬ exclusive s'.
Proof.
  intros Hreg Hq. cbv zeta.
  assert (Hnew : watch_infos_ (onUpdateTaskFinished pf env (Some task) true s)
                 !! localFilePath task = Some WatchedFileInfo_default).
  { rewrite onUpdateTaskFinished_registry, Hreg. apply lookup_insert_eq. }
  split_and!; [done | apply onUpdateTaskFinished_queue |].
  intros Hexcl. specialize (Hexcl _ _ Hnew). cbn beta in Hexcl.
  rewrite onUpdateTaskFinished_queue in Hexcl. cbn [repo_id path_in_repo WatchedFileInfo_default] in Hexcl.
  congruence.
Qed.

Lemma late_success_breaks_exclusive_witness :
  let pf := sample_platform false in
  let env := sample_env [report; notes] alice in
  let task := mkFileUploadTask notes "repoX" "/notes.txt" in
  let s := run pf one_completion_late initial in
  exclusive s
  ∧ deleted_files_infos_ s = [WatchedFileInfo_default]
  ∧ ¬ exclusive (onUpdateTaskFinished pf env (Some task) true s).
Proof.
  cbv zeta.
  destruct (late_success_breaks_exclusive (sample_platform false)
              (sample_env [report; notes] alice)
              (mkFileUploadTask notes "repoX" "/notes.txt")
              (run (sample_platform false) one_completion_late initial))
    as (_ & _ & Hbroken); [vm_compute; reflexivity | vm_compute; reflexivity |].
  split_and!; [| vm_compute; reflexivity | exact Hbroken].
  intros k i Hk.
  replace (watch_infos_ (run (sample_platform false) one_completion_late initial))
    with (∅ : gmap string WatchedFileInfo) in Hk by (vm_compute; reflexivity).
  by rewrite lookup_empty in Hk.
Defined.

(** * Further properties of the code *)

(** ** addPath and removePath *)

(** X1: [addPath] answers true exactly when the file is in the watch set
    afterwards; it never takes a path out of the set, adds at most the
    file itself, and leaves registry and queue alone. *)
Theorem addPath_result env f s :
  let r := addPath env f s in
  (r.1 = true ↔ f ∈ watcher_ r.2)
  ∧ watcher_ s ⊆ watcher_ r.2
  ∧ watcher_ r.2 ⊆ watcher_ s ∪ {[f]}
  ∧ watch_infos_ r.2 = watch_infos_ s
  ∧ deleted_files_infos_ r.2 = deleted_files_infos_ s.
Proof.
  cbv zeta. unfold addPath.
  destruct (bool_decide_reflect (f ∈ watcher_ s)) as [Hin|Hin];
    [|destruct (watcher_addPath env f)]; simpl;
    split_and!; try done; set_solver.
Qed.

(** X2: [removePath] answers true exactly when the file is not in the watch
    set afterwards; it adds nothing and removes at most the file itself,
    and leaves registry and queue alone. *)
Theorem removePath_result env f s :
  let r := removePath env f s in
  (r.1 = true ↔ f ∉ watcher_ r.2)
  ∧ watcher_ r.2 ⊆ watcher_ s
  ∧ watcher_ s ∖ {[f]} ⊆ watcher_ r.2
  ∧ watch_infos_ r.2 = watch_infos_ s
  ∧ deleted_files_infos_ r.2 = deleted_files_infos_ s.
Proof.
  cbv zeta. unfold removePath.
  destruct (bool_decide_reflect (f ∈ watcher_ s)) as [Hin|Hin];
    [destruct (watcher_removePath env f)|]; simpl;
    split_and!; try done; set_solver.
Qed.

(** ** Registering and unregistering *)

Lemma watchCachedFile_watcher pf env a r p s :
  watcher_ (watchCachedFile pf env a r p s) =
  if file_exists env (getLocalCacheFilePath pf r p)
     && negb (in_deferred_list r p (deleted_files_infos_ s))
  then watcher_ (addPath env (getLocalCacheFilePath pf r p) s).2
  else watcher_ s.
Proof.
  unfold watchCachedFile. destruct (file_exists env _); [|done].
  cbn [negb andb qDebug emit deleted_files_infos_].
  destruct (in_deferred_list r p (deleted_files_infos_ s)); [done|].
  state_simpl. unfold addPath. simpl. by case_watcher.
Qed.

Lemma addPath_watcher env f s :
  watcher_ (addPath env f s).2 =
  if bool_decide (f ∈ watcher_ s) then watcher_ s
  else if watcher_addPath env f then watcher_ s ∪ {[f]} else watcher_ s.
Proof. by case_watcher. Qed.

(** X3: registering a file that is cached and not in the deferred queue,
    with a watcher that accepts it, puts the entry (account, repository,
    path, [uploading] false) under the cache path, replacing whatever was
    there, arms the path, and changes no other entry and not the queue;
    the only trace is the debug line. *)
Theorem watchCachedFile_registers pf env a r p s :
  file_exists env (getLocalCacheFilePath pf r p) = true →
  in_deferred_list r p (deleted_files_infos_ s) = false →
  watcher_addPath env (getLocalCacheFilePath pf r p) = true →
  let L := getLocalCacheFilePath pf r p in
  let s' := watchCachedFile pf env a r p s in
  watch_infos_ s' = <[L := mkWatchedFileInfo a r p false]> (watch_infos_ s)
  ∧ watcher_ s' = watcher_ s ∪ {[L]}
  ∧ deleted_files_infos_ s' = deleted_files_infos_ s
  ∧ performed s s' = [ QLog Debug ("[AutoUpdateManager] watch cache file " +:+ L) ].
Proof.
  intros Hex Hq Hok. cbv zeta. unfold watchCachedFile.
  rewrite Hex. cbn [negb qDebug emit deleted_files_infos_]. rewrite Hq.
  rewrite addPath_ok by done. state_simpl.
  split_and!; try done. by apply performed_app.
Qed.

Lemma watchCachedFile_registers_witness :
  let pf := sample_platform false in
  let env := sample_env [report; notes] bob in
  let s' := watchCachedFile pf env bob "repoX" "/report.docx" uploading_report in
  watch_infos_ uploading_report !! report
  = Some (mkWatchedFileInfo alice "repoX" "/report.docx" true)
  ∧ watch_infos_ s' !! report
    = Some (mkWatchedFileInfo bob "repoX" "/report.docx" false)
  ∧ watcher_ s' = watcher_ uploading_report ∪ {[report]}.
Proof.
  cbv zeta.
  destruct (watchCachedFile_registers (sample_platform false)
              (sample_env [report; notes] bob) bob "repoX" "/report.docx"
              uploading_report) as (Hm & Hw & _);
    [vm_compute; reflexivity | vm_compute; reflexivity | vm_compute; reflexivity |].
  split_and!; [vm_compute; reflexivity | | exact Hw].
  rewrite Hm. apply lookup_insert_eq.
Defined.

(** X4: registering the same file twice in the same world gives the same
    registry, watch set and queue as registering it once. *)
Theorem watchCachedFile_idempotent pf env a r p s :
  let s1 := watchCachedFile pf env a r p s in
  let s2 := watchCachedFile pf env a r p s1 in
  watch_infos_ s2 = watch_infos_ s1
  ∧ watcher_ s2 = watcher_ s1
  ∧ deleted_files_infos_ s2 = deleted_files_infos_ s1.
Proof.
  cbv zeta. set (s1 := watchCachedFile pf env a r p s).
  destruct (watchCachedFile_registry_queue pf env a r p s) as [Hq1 Hm1].
  destruct (watchCachedFile_registry_queue pf env a r p s1) as [Hq2 Hm2].
  pose proof (watchCachedFile_watcher pf env a r p s) as Hw1.
  pose proof (watchCachedFile_watcher pf env a r p s1) as Hw2.
  fold s1 in Hq1, Hm1, Hw1. rewrite Hq1 in Hm2, Hw2. rewrite Hq2, Hm2, Hw2.
  rewrite addPath_watcher.
  destruct (file_exists env (getLocalCacheFilePath pf r p)
            && negb (in_deferred_list r p (deleted_files_infos_ s))); [|done].
  split_and!; [by rewrite Hm1, insert_insert_eq | | done].
  rewrite Hw1, addPath_watcher.
  repeat (case_bool_decide || destruct (watcher_addPath env _)); set_solver.
Qed.

Lemma watchCachedFile_agreement pf env a r p s :
  watcher_addPath env (getLocalCacheFilePath pf r p) = true →
  armed_iff_registered s →
  armed_iff_registered (watchCachedFile pf env a r p s).
Proof.
  intros Hok Hiff k. destruct (watchCachedFile_registry_queue pf env a r p s) as [_ Hm].
  rewrite Hm, watchCachedFile_watcher. destruct (_ && _); [|apply Hiff].
  rewrite addPath_ok by done. simpl.
  rewrite elem_of_union, elem_of_singleton, lookup_insert_is_Some, (Hiff k).
  destruct (decide (getLocalCacheFilePath pf r p = k)); naive_solver.
Qed.

(** X5: if registry and watch set hold the same paths and the watcher
    accepts the cache path, they still hold the same paths after
    [watchCachedFile]. *)
Theorem watchCachedFile_keeps_agreement pf env a r p s :
  watcher_addPath env (getLocalCacheFilePath pf r p) = true →
  armed_iff_registered s →
  armed_iff_registered (watchCachedFile pf env a r p s).
Proof. apply watchCachedFile_agreement. Qed.


Lemma watchCachedFile_keeps_agreement_witness :
  armed_iff_registered initial ∧ armed_iff_registered watching_report.
Proof.
  assert (H0 : armed_iff_registered initial).
  { intros k. simpl. rewrite lookup_empty, elem_of_empty. split; [done|].
    by intros [? ?]. }
  split; [exact H0|].
  exact (watchCachedFile_keeps_agreement (sample_platform false)
           (sample_env [report] alice) alice "repoX" "/report.docx" initial
           eq_refl H0).
Defined.

(** X6: if registry and watch set hold the same paths and the watcher
    accepts the removal, they still hold the same paths after
    [removeWatch]. *)
Theorem removeWatch_preserves_agreement env L s :
  watcher_removePath env L = true →
  armed_iff_registered s →
  armed_iff_registered (removeWatch env L s).
Proof. apply removeWatch_keeps_agreement. Qed.

Lemma removeWatch_preserves_agreement_witness :
  armed_iff_registered watching_report
  ∧ armed_iff_registered
      (removeWatch (sample_env [report] alice) report watching_report).
Proof.
  assert (H0 : armed_iff_registered initial).
  { intros k. simpl. rewrite lookup_empty, elem_of_empty. split; [done|].
    by intros [? ?]. }
  assert (H1 : armed_iff_registered watching_report).
  { exact (watchCachedFile_agreement (sample_platform false)
             (sample_env [report] alice) alice "repoX" "/report.docx" initial
             eq_refl H0). }
  split; [exact H1|].
  exact (removeWatch_preserves_agreement (sample_env [report] alice) report
           watching_report eq_refl H1).
Defined.

(** X7: registering a path that was neither registered nor armed and then
    calling [removeWatch] on it gives back the registry, the watch set and
    the queue one started from, whether or not the registration took. *)
Theorem watch_then_removeWatch pf env env' a r p s :
  watch_infos_ s !! getLocalCacheFilePath pf r p = None →
  getLocalCacheFilePath pf r p ∉ watcher_ s →
  watcher_removePath env' (getLocalCacheFilePath pf r p) = true →
  let s' := removeWatch env' (getLocalCacheFilePath pf r p)
                        (watchCachedFile pf env a r p s) in
  watch_infos_ s' = watch_infos_ s
  ∧ watcher_ s' = watcher_ s
  ∧ deleted_files_infos_ s' = deleted_files_infos_ s.
Proof.
  intros Hreg Harm Hok. cbv zeta.
  destruct (removeWatch_unregisters_and_disarms env' (getLocalCacheFilePath pf r p)
              (watchCachedFile pf env a r p s) Hok) as [-> ->].
  unfold removeWatch. rewrite removePath_deleted. cbn [deleted_files_infos_ set_watch_infos].
  destruct (watchCachedFile_registry_queue pf env a r p s) as [-> ->].
  rewrite watchCachedFile_watcher.
  destruct (_ && _).
  - split_and!; [by rewrite delete_insert_eq, delete_id | | done].
    case_watcher; set_solver.
  - split_and!; [by rewrite delete_id | set_solver | done].
Qed.

Lemma watch_then_removeWatch_witness :
  let pf := sample_platform false in
  let env := sample_env [report; notes] alice in
  let s' := removeWatch env notes
              (watchCachedFile pf env alice "repoX" "/notes.txt" watching_report) in
  watch_infos_ (watchCachedFile pf env alice "repoX" "/notes.txt" watching_report)
    !! notes = Some (WatchedFileInfo_new alice "repoX" "/notes.txt")
  ∧ watch_infos_ s' = watch_infos_ watching_report
  ∧ watcher_ s' = watcher_ watching_report.
Proof.
  cbv zeta.
  destruct (watch_then_removeWatch (sample_platform false)
              (sample_env [report; notes] alice) (sample_env [report; notes] alice)
              alice "repoX" "/notes.txt" watching_report)
    as (Hm & Hw & _);
    [vm_compute; reflexivity | vm_compute; by intros [=] | reflexivity |].
  split_and!; [vm_compute; reflexivity | exact Hm | exact Hw].
Defined.

(** ** What a call adds to the trace *)

Lemma uploads_in_app l1 l2 : uploads_in (l1 ++ l2) = uploads_in l1 ++ uploads_in l2.
Proof.
  induction l1 as [|e l1 IH]; [done|]. destruct e; simpl; by rewrite ?IH.
Qed.

Lemma uploads_started_emit e s :
  uploads_started (emit e s) = uploads_started s ++ uploads_in [e].
Proof. unfold uploads_started. simpl. apply uploads_in_app. Qed.

Lemma scheduled_emit e s :
  scheduled (emit e s)
  = (scheduled s + if is_single_shot e then 1 else 0)%nat.
Proof.
  unfold scheduled. simpl. rewrite List.filter_app, length_app. simpl.
  by destruct (is_single_shot e).
Qed.

Lemma uploads_started_addPath env f s :
  uploads_started (addPath env f s).2 = uploads_started s.
Proof.
  unfold addPath. destruct (bool_decide _); [done|].
  destruct (watcher_addPath env f); [done|].
  cbn [snd]. unfold qWarning. rewrite uploads_started_emit. apply app_nil_r.
Qed.

Lemma uploads_started_removePath env f s :
  uploads_started (removePath env f s).2 = uploads_started s.
Proof.
  unfold removePath. destruct (negb _); [done|].
  destruct (watcher_removePath env f); [done|].
  cbn [snd]. unfold qWarning. rewrite uploads_started_emit. apply app_nil_r.
Qed.

Lemma scheduled_addPath env f s : scheduled (addPath env f s).2 = scheduled s.
Proof.
  unfold addPath. destruct (bool_decide _); [done|].
  destruct (watcher_addPath env f); [done|].
  cbn [snd]. unfold qWarning. rewrite scheduled_emit. simpl. lia.
Qed.

Lemma scheduled_removePath env f s : scheduled (removePath env f s).2 = scheduled s.
Proof.
  unfold removePath. destruct (negb _); [done|].
  destruct (watcher_removePath env f); [done|].
  cbn [snd]. unfold qWarning. rewrite scheduled_emit. simpl. lia.
Qed.

Lemma uploads_started_set_watcher w s :
  uploads_started (set_watcher w s) = uploads_started s.
Proof. done. Qed.
Lemma uploads_started_set_watch_infos m s :
  uploads_started (set_watch_infos m s) = uploads_started s.
Proof. done. Qed.
Lemma uploads_started_set_deleted q s :
  uploads_started (set_deleted_files_infos q s) = uploads_started s.
Proof. done. Qed.
Lemma uploads_started_set_images im s :
  uploads_started (set_images im s) = uploads_started s.
Proof. done. Qed.
Lemma scheduled_set_watcher w s : scheduled (set_watcher w s) = scheduled s.
Proof. done. Qed.
Lemma scheduled_set_watch_infos m s : scheduled (set_watch_infos m s) = scheduled s.
Proof. done. Qed.
Lemma scheduled_set_deleted q s : scheduled (set_deleted_files_infos q s) = scheduled s.
Proof. done. Qed.
Lemma scheduled_set_images im s : scheduled (set_images im s) = scheduled s.
Proof. done. Qed.

Create Rewrite HintDb trace.
#[local] Hint Rewrite
  uploads_started_emit uploads_started_addPath uploads_started_removePath
  uploads_started_set_watcher uploads_started_set_watch_infos
  uploads_started_set_deleted uploads_started_set_images
  scheduled_emit scheduled_addPath scheduled_removePath
  scheduled_set_watcher scheduled_set_watch_infos
  scheduled_set_deleted scheduled_set_images : trace.

Ltac trace_simpl :=
  unfold qDebug, qWarning; autorewrite with trace; cbn [uploads_in is_single_shot];
  rewrite <- ?app_assoc, ?app_nil_r; cbn [app].

Ltac proj_simpl :=
  cbn [watcher_ watch_infos_ deleted_files_infos_ images_ effects
       set_watcher set_watch_infos set_deleted_files_infos set_images
       emit qDebug qWarning fst snd negb].

Lemma removePath_bounds env f s :
  watcher_ (removePath env f s).2 ⊆ watcher_ s
  ∧ watcher_ s ∖ {[f]} ⊆ watcher_ (removePath env f s).2.
Proof.
  unfold removePath. destruct (negb _); [set_solver|].
  destruct (watcher_removePath env f); cbn [snd]; proj_simpl; set_solver.
Qed.

(** ** One change notification *)

Lemma onFileChanged_adds pf env L s :
  let s' := onFileChanged pf env L s in
  uploads_started s' =
    uploads_started s ++
    (if suppressed pf env L s then []
     else match watch_infos_ s !! L with
          | Some info => if file_exists env L then [upload_request pf L info] else []
          | None => []
          end)
  ∧ scheduled s' =
    (scheduled s +
     (if suppressed pf env L s then 0
      else match watch_infos_ s !! L with
           | Some info => if file_exists env L then 0 else 1
           | None => 0
           end))%nat.
Proof.
  cbv zeta. unfold onFileChanged, qDebug. rewrite suppressed_emit.
  destruct (suppressed pf env L s).
  { trace_simpl. split; [done | lia]. }
  rewrite removePath_watch_infos. cbn [watch_infos_ emit].
  destruct (watch_infos_ s !! L) as [info|] eqn:Hreg.
  - rewrite bool_decide_eq_true_2 by eauto. cbn [negb].
    rewrite (index_present _ _ _ Hreg).
    destruct (file_exists env L); cbn [negb]; unfold removeWatch;
      trace_simpl; (split; [reflexivity | lia]).
  - rewrite bool_decide_eq_false_2 by (intros [? ?]; done). cbn [negb].
    trace_simpl. split; [done | lia].
Qed.

(** X8: whatever the watcher answers, [onFileChanged] starts an upload
    exactly when the event is not discarded by the Mac hook, the path is
    registered and the file exists, and then it is one upload, for the
    entry's account and repository, into the parent directory of its
    path, under the base name of the local file, with overwrite set; it
    schedules a timer exactly when the path is registered and the file is
    gone, and then it is one timer. *)
Theorem onFileChanged_trace pf env L s :
  let s' := onFileChanged pf env L s in
  uploads_started s' =
    uploads_started s ++
    (if suppressed pf env L s then []
     else match watch_infos_ s !! L with
          | Some info => if file_exists env L then [upload_request pf L info] else []
          | None => []
          end)
  ∧ scheduled s' =
    (scheduled s +
     (if suppressed pf env L s then 0
      else match watch_infos_ s !! L with
           | Some info => if file_exists env L then 0 else 1
           | None => 0
           end))%nat.
Proof. apply onFileChanged_adds. Qed.


Lemma onFileChanged_images pf env L s : images_ (onFileChanged pf env L s) = images_ s.
Proof.
  unfold onFileChanged, qDebug. rewrite suppressed_emit.
  destruct (suppressed pf env L s); [done|].
  destruct (bool_decide _); cbn [negb]; [|rewrite removePath_images; reflexivity].
  destruct (index L _) as [info m]. unfold removeWatch.
  destruct (file_exists env L);
    repeat (progress (proj_simpl; rewrite ?removePath_images)); reflexivity.
Qed.

Lemma onFileChanged_watcher pf env L s :
  let s' := onFileChanged pf env L s in
  watcher_ s' ⊆ watcher_ s ∧ watcher_ s ∖ {[L]} ⊆ watcher_ s'.
Proof.
  cbv zeta. unfold onFileChanged.
  set (s0 := qDebug _ s). change (suppressed pf env L s0) with (suppressed pf env L s).
  destruct (suppressed pf env L s); [set_solver|].
  pose proof (removePath_bounds env L s0) as [H1 H2].
  change (watcher_ s0) with (watcher_ s) in H1, H2.
  set (s1 := (removePath env L s0).2) in *.
  destruct (bool_decide _); cbn [negb]; [|done].
  destruct (index L _) as [info m]. unfold removeWatch.
  destruct (file_exists env L); cbn [negb]; [by proj_simpl|].
  match goal with
  | |- context [removePath env L ?x] =>
    pose proof (removePath_bounds env L x) as [H3 H4];
      set (s2 := (removePath env L x).2) in *
  end.
  revert H1 H2 H3 H4. proj_simpl. clearbody s1 s2. clear. set_solver.
Qed.

Lemma onFileChanged_disarms pf env L s :
  suppressed pf env L s = false →
  watcher_removePath env L = true →
  L ∉ watcher_ (onFileChanged pf env L s).
Proof.
  intros Hsup Hok. unfold onFileChanged, qDebug.
  rewrite suppressed_emit, Hsup, removePath_ok by done. cbn [watch_infos_ set_watcher emit].
  destruct (bool_decide _); cbn [negb]; [|proj_simpl; set_solver].
  destruct (index L _) as [info m]. unfold removeWatch.
  destruct (file_exists env L); cbn [negb]; [proj_simpl; set_solver|].
  rewrite removePath_ok by done. proj_simpl. set_solver.
Qed.

(** X9: a notification for [L] touches no other path: every other registry
    entry and every other watch is as before; the watch set never grows
    and the image table is not written. *)
Theorem onFileChanged_frame pf env L s :
  let s' := onFileChanged pf env L s in
  watcher_ s' ⊆ watcher_ s
  ∧ images_ s' = images_ s
  ∧ ∀ k, k ≠ L →
         watch_infos_ s' !! k = watch_infos_ s !! k
         ∧ (k ∈ watcher_ s' ↔ k ∈ watcher_ s).
Proof.
  cbv zeta. destruct (onFileChanged_watcher pf env L s) as [Hsub Hsup].
  split_and!; [done | apply onFileChanged_images |].
  intros k Hk. split; [|set_solver].
  pose proof (onFileChanged_registry_queue pf env L s) as H. cbv zeta in H.
  destruct (suppressed pf env L s); [by injection H as -> _|].
  destruct (watch_infos_ s !! L) as [info|]; [|by injection H as -> _].
  destruct (file_exists env L); injection H as -> _.
  - by rewrite lookup_insert_ne.
  - by rewrite lookup_delete_ne.
Qed.

(** X24: what [onFileChanged] does to registry and queue, whatever the
    watcher answers: nothing if the Mac hook discards the event or the path
    has no entry; for an entry whose file exists, the entry is marked
    uploading and the queue is as it was; for an entry whose file is gone,
    the entry leaves the registry and joins the queue at its tail. *)
Theorem onFileChanged_registry_and_queue pf env L s :
  let s' := onFileChanged pf env L s in
  (watch_infos_ s', deleted_files_infos_ s') =
  if suppressed pf env L s then (watch_infos_ s, deleted_files_infos_ s)
  else match watch_infos_ s !! L with
       | None => (watch_infos_ s, deleted_files_infos_ s)
       | Some info =>
         if file_exists env L
         then (<[L := set_uploading true info]> (watch_infos_ s), deleted_files_infos_ s)
         else (delete L (watch_infos_ s), deleted_files_infos_ s ++ [info])
       end.
Proof. apply onFileChanged_registry_queue. Qed.

(** ** A change followed by the end of the upload *)

Lemma set_uploading_twice b b' i : set_uploading b (set_uploading b' i) = set_uploading b i.
Proof. done. Qed.

Lemma set_uploading_same i : set_uploading (uploading i) i = i.
Proof. by destruct i. Qed.

(** X10: a change to a registered, existing file followed by the success
    of its upload leaves the entry with [uploading] false and the path
    armed; if the entry was not marked uploading before, the registry is
    exactly what it was.  The queue is not involved. *)
Theorem change_then_success pf env env' L s info task :
  suppressed pf env L s = false →
  watch_infos_ s !! L = Some info →
  file_exists env L = true →
  localFilePath task = L →
  watcher_addPath env' L = true →
  let s' := onUpdateTaskFinished pf env' (Some task) true (onFileChanged pf env L s) in
  watch_infos_ s' = <[L := set_uploading false info]> (watch_infos_ s)
  ∧ (uploading info = false → watch_infos_ s' = watch_infos_ s)
  ∧ L ∈ watcher_ s'
  ∧ deleted_files_infos_ s' = deleted_files_infos_ s
  ∧ uploads_started s' = uploads_started s ++ [upload_request pf L info].
Proof.
  intros Hsup Hreg Hex <- Hok. cbv zeta.
  destruct (onFileChanged_upload pf env _ s info Hsup Hreg Hex) as (Hm & Hq & _).
  destruct (onFileChanged_adds pf env (localFilePath task) s) as [Hup _].
  rewrite Hsup, Hreg, Hex in Hup.
  rewrite (onUpdateTaskFinished_success_state pf env' task _ Hok).
  cbn [watch_infos_ watcher_ deleted_files_infos_]. rewrite Hm, Hq, lookup_insert_eq.
  cbn [default id]. rewrite set_uploading_twice, insert_insert_eq.
  assert (Hreg' : <[localFilePath task := set_uploading false info]> (watch_infos_ s)
                  = <[localFilePath task := set_uploading false info]> (watch_infos_ s))
    by done.
  split_and!; [done | | set_solver | done |].
  - intros Hidle. rewrite <- Hidle, set_uploading_same. by apply insert_id.
  - unfold uploads_started in *. cbn [effects].
    rewrite uploads_in_app, Hup. simpl. by rewrite app_nil_r.
Qed.

Lemma change_then_success_witness :
  let pf := sample_platform false in
  let env := sample_env [report] alice in
  let task := mkFileUploadTask report "repoX" "/report.docx" in
  let s' := onUpdateTaskFinished pf env (Some task) true
              (onFileChanged pf env report watching_report) in
  watch_infos_ watching_report !! report
  = Some (WatchedFileInfo_new alice "repoX" "/report.docx")
  ∧ watch_infos_ s' = watch_infos_ watching_report
  ∧ report ∈ watcher_ s'.
Proof.
  cbv zeta.
  destruct (change_then_success (sample_platform false) (sample_env [report] alice)
              (sample_env [report] alice) report watching_report
              (WatchedFileInfo_new alice "repoX" "/report.docx")
              (mkFileUploadTask report "repoX" "/report.docx"))
    as (_ & Hsame & Harm & _);
    [reflexivity | vm_compute; reflexivity | reflexivity | reflexivity | reflexivity |].
  split_and!; [vm_compute; reflexivity | exact (Hsame eq_refl) | exact Harm].
Defined.

(** X11: a change to a registered, existing file followed by the failure
    of its upload leaves the path without registry entry and, when the
    watcher accepted the removal, without watch: it takes a new
    [watchCachedFile] to have the file followed again. *)
Theorem change_then_failure pf env env' L s info task :
  suppressed pf env L s = false →
  watch_infos_ s !! L = Some info →
  file_exists env L = true →
  localFilePath task = L →
  watcher_removePath env L = true →
  let s' := onUpdateTaskFinished pf env' (Some task) false (onFileChanged pf env L s) in
  watch_infos_ s' = delete L (watch_infos_ s)
  ∧ (L ∉ watcher_ s')
  ∧ deleted_files_infos_ s' = deleted_files_infos_ s
  ∧ scheduled s' = scheduled s
  ∧ uploads_started s' = uploads_started s ++ [upload_request pf L info].
Proof.
  intros Hsup Hreg Hex <- Hok. cbv zeta.
  destruct (onFileChanged_upload pf env _ s info Hsup Hreg Hex) as (Hm & Hq & _).
  destruct (onFileChanged_adds pf env (localFilePath task) s) as [Hup Hsched].
  rewrite Hsup, Hreg, Hex in Hup, Hsched.
  rewrite (onUpdateTaskFinished_failure_state pf env' task _).
  cbn [watch_infos_ watcher_ deleted_files_infos_]. rewrite Hm, Hq, delete_insert_eq.
  split_and!; [done | by apply onFileChanged_disarms | done | |].
  - unfold scheduled in *. cbn [effects].
    rewrite List.filter_app, length_app, Hsched. simpl. lia.
  - unfold uploads_started in *. cbn [effects].
    rewrite uploads_in_app, Hup. simpl. by rewrite app_nil_r.
Qed.

Lemma change_then_failure_witness :
  let pf := sample_platform false in
  let env := sample_env [report] alice in
  let task := mkFileUploadTask report "repoX" "/report.docx" in
  let s' := onUpdateTaskFinished pf env (Some task) false
              (onFileChanged pf env report watching_report) in
  watch_infos_ watching_report !! report
  = Some (WatchedFileInfo_new alice "repoX" "/report.docx")
  ∧ watch_infos_ s' = delete report (watch_infos_ watching_report)
  ∧ (report ∉ watcher_ s').
Proof.
  cbv zeta.
  destruct (change_then_failure (sample_platform false) (sample_env [report] alice)
              (sample_env [report] alice) report watching_report
              (WatchedFileInfo_new alice "repoX" "/report.docx")
              (mkFileUploadTask report "repoX" "/report.docx"))
    as (Hm & Harm & _);
    [reflexivity | vm_compute; reflexivity | reflexivity | reflexivity | reflexivity |].
  split_and!; [vm_compute; reflexivity | exact Hm | exact Harm].
Defined.

(** ** Delete and recreate *)

Lemma checkFileRecreated_cons pf env s info rest :
  deleted_files_infos_ s = info :: rest →
  checkFileRecreated pf env s =
  let p := getLocalCacheFilePath pf (repo_id info) (path_in_repo info) in
  if file_exists env p
  then onFileChanged pf env p
         (set_watch_infos (<[p := info]> (watch_infos_ s))
            (addPath env p
               (qDebug ("[AutoUpdateManager] detected recreated file " +:+ p)
                       (set_deleted_files_infos rest s))).2)
  else set_deleted_files_infos rest s.
Proof.
  intros Hq. unfold checkFileRecreated. rewrite Hq. cbv zeta.
  destruct (file_exists env _); [|done]. by rewrite addPath_watch_infos.
Qed.

(** X12: a registered file (under the cache path of its own repository and
    path, with nothing else queued) is deleted and is back when the timer
    fires: after the notification and the re-check the entry is in the
    registry again, marked uploading, the queue is empty, one timer was
    scheduled and exactly one upload was started, with overwrite set. *)
Theorem deleted_then_recreated pf env1 env2 L s info :
  watch_infos_ s !! L = Some info →
  L = getLocalCacheFilePath pf (repo_id info) (path_in_repo info) →
  deleted_files_infos_ s = [] →
  suppressed pf env1 L s = false →
  suppressed pf env2 L s = false →
  file_exists env1 L = false →
  file_exists env2 L = true →
  let s' := checkFileRecreated pf env2 (onFileChanged pf env1 L s) in
  watch_infos_ s' = <[L := set_uploading true info]> (watch_infos_ s)
  ∧ deleted_files_infos_ s' = []
  ∧ uploads_started s' = uploads_started s ++ [upload_request pf L info]
  ∧ scheduled s' = S (scheduled s).
Proof.
  intros Hreg HL Hq Hsup1 Hsup2 Hgone Hback. cbv zeta.
  set (s1 := onFileChanged pf env1 L s).
  pose proof (onFileChanged_registry_queue pf env1 L s) as H1. cbv zeta in H1.
  rewrite Hsup1, Hreg, Hgone, Hq in H1. fold s1 in H1. injection H1 as Hm1 Hq1.
  destruct (onFileChanged_adds pf env1 L s) as [Hup1 Hsched1].
  rewrite Hsup1, Hreg, Hgone in Hup1, Hsched1. fold s1 in Hup1, Hsched1.
  rewrite (checkFileRecreated_cons pf env2 s1 info [] Hq1). cbv zeta.
  rewrite <- HL, Hback.
  set (s2 := set_watch_infos _ _).
  assert (Hm2 : watch_infos_ s2 = <[L := info]> (watch_infos_ s)).
  { unfold s2. proj_simpl. by rewrite Hm1, insert_delete_eq. }
  assert (Hq2 : deleted_files_infos_ s2 = []).
  { unfold s2. proj_simpl. by rewrite addPath_deleted. }
  assert (Hsup : suppressed pf env2 L s2 = false).
  { rewrite <- Hsup2. unfold suppressed, isRecentOpenedImage, s2. proj_simpl.
    rewrite addPath_images. proj_simpl. unfold s1.
    by rewrite onFileChanged_images. }
  assert (Hup2 : uploads_started s2 = uploads_started s).
  { unfold s2. trace_simpl. by rewrite Hup1, app_nil_r. }
  assert (Hsched2 : scheduled s2 = S (scheduled s)).
  { unfold s2. trace_simpl. rewrite Hsched1. lia. }
  pose proof (onFileChanged_registry_queue pf env2 L s2) as H2. cbv zeta in H2.
  rewrite Hsup, Hm2, lookup_insert_eq, Hback in H2. injection H2 as -> ->.
  destruct (onFileChanged_adds pf env2 L s2) as [-> ->].
  rewrite Hsup, Hm2, lookup_insert_eq, Hback, Hup2, Hsched2.
  split_and!; [by rewrite insert_insert_eq | by rewrite addPath_deleted | done | lia].
Qed.

Lemma deleted_then_recreated_witness :
  let pf := sample_platform false in
  let info := WatchedFileInfo_new alice "repoX" "/report.docx" in
  let s' := checkFileRecreated pf (sample_env [report] alice)
              (onFileChanged pf (sample_env [] alice) report watching_report) in
  watch_infos_ watching_report !! report = Some info
  ∧ watch_infos_ s' = <[report := set_uploading true info]> (watch_infos_ watching_report)
  ∧ deleted_files_infos_ s' = []
  ∧ uploads_started s' = [upload_request pf report info].
Proof.
  cbv zeta.
  destruct (deleted_then_recreated (sample_platform false) (sample_env [] alice)
              (sample_env [report] alice) report watching_report
              (WatchedFileInfo_new alice "repoX" "/report.docx"))
    as (Hm & Hq & Hup & _);
    [vm_compute; reflexivity | reflexivity | reflexivity | reflexivity
     | reflexivity | reflexivity | reflexivity |].
  split_and!; [vm_compute; reflexivity | exact Hm | exact Hq | exact Hup].
Defined.

(** X13: the same file is still gone when the timer fires: the entry is in
    neither registry nor queue, nothing was uploaded, no second timer was
    scheduled, and (the watcher having accepted the removal) the path is
    not watched. *)
Theorem deleted_for_good pf env1 env2 L s info :
  watch_infos_ s !! L = Some info →
  L = getLocalCacheFilePath pf (repo_id info) (path_in_repo info) →
  deleted_files_infos_ s = [] →
  suppressed pf env1 L s = false →
  file_exists env1 L = false →
  file_exists env2 L = false →
  watcher_removePath env1 L = true →
  let s' := checkFileRecreated pf env2 (onFileChanged pf env1 L s) in
  watch_infos_ s' = delete L (watch_infos_ s)
  ∧ deleted_files_infos_ s' = []
  ∧ (L ∉ watcher_ s')
  ∧ uploads_started s' = uploads_started s
  ∧ scheduled s' = S (scheduled s).
Proof.
  intros Hreg HL Hq Hsup1 Hgone Hstill Hok. cbv zeta.
  set (s1 := onFileChanged pf env1 L s).
  pose proof (onFileChanged_registry_queue pf env1 L s) as H1. cbv zeta in H1.
  rewrite Hsup1, Hreg, Hgone, Hq in H1. fold s1 in H1. injection H1 as Hm1 Hq1.
  destruct (onFileChanged_adds pf env1 L s) as [Hup1 Hsched1].
  rewrite Hsup1, Hreg, Hgone in Hup1, Hsched1. fold s1 in Hup1, Hsched1.
  rewrite (checkFileRecreated_cons pf env2 s1 info [] Hq1). cbv zeta.
  rewrite <- HL, Hstill. proj_simpl. trace_simpl.
  split_and!; [done | done | by apply onFileChanged_disarms
               | by rewrite Hup1, app_nil_r | rewrite Hsched1; lia].
Qed.

Lemma deleted_for_good_witness :
  let pf := sample_platform false in
  let env := sample_env [] alice in
  let s' := checkFileRecreated pf env (onFileChanged pf env report watching_report) in
  watch_infos_ watching_report !! report
  = Some (WatchedFileInfo_new alice "repoX" "/report.docx")
  ∧ watch_infos_ s' = delete report (watch_infos_ watching_report)
  ∧ deleted_files_infos_ s' = []
  ∧ (report ∉ watcher_ s').
Proof.
  cbv zeta.
  destruct (deleted_for_good (sample_platform false) (sample_env [] alice)
              (sample_env [] alice) report watching_report
              (WatchedFileInfo_new alice "repoX" "/report.docx"))
    as (Hm & Hq & Hw & _);
    [vm_compute; reflexivity | reflexivity | reflexivity | reflexivity
     | reflexivity | reflexivity | reflexivity |].
  split_and!; [vm_compute; reflexivity | exact Hm | exact Hq | exact Hw].
Defined.

(** ** Timers and queue entries *)

Lemma onUpdateTaskFinished_deleted pf env sender success s :
  deleted_files_infos_ (onUpdateTaskFinished pf env sender success s)
  = deleted_files_infos_ s.
Proof.
  unfold onUpdateTaskFinished. destruct sender as [task|]; [|done].
  destruct success; [|done]. destruct (index _ _) as [info m]. proj_simpl.
  by rewrite addPath_deleted.
Qed.

Lemma scheduled_watchCachedFile pf env a r p s :
  scheduled (watchCachedFile pf env a r p s) = scheduled s.
Proof.
  unfold watchCachedFile. destruct (negb _); [trace_simpl; lia|].
  destruct (in_deferred_list _ _ _); trace_simpl; lia.
Qed.

Lemma scheduled_cleanCachedFile env s : scheduled (cleanCachedFile env s) = scheduled s.
Proof. unfold cleanCachedFile. trace_simpl. lia. Qed.

Lemma scheduled_onUpdateTaskFinished pf env sender success s :
  scheduled (onUpdateTaskFinished pf env sender success s) = scheduled s.
Proof.
  unfold onUpdateTaskFinished. destruct sender as [task|]; [|done].
  destruct success; [destruct (index _ _) as [info m]|]; trace_simpl; lia.
Qed.

Lemma scheduled_removeWatch env L s : scheduled (removeWatch env L s) = scheduled s.
Proof. unfold removeWatch. by trace_simpl. Qed.

Lemma scheduled_fileOpened pf env p s : scheduled (fileOpened pf env p s) = scheduled s.
Proof. unfold fileOpened. by destruct (_ || _). Qed.

(** Outside [checkFileRecreated], the queue grows exactly as timers are
    scheduled. *)
Lemma call_balance pf env c s :
  c ≠ CheckFileRecreated →
  (scheduled (call pf env c s) + length (deleted_files_infos_ s)
   = scheduled s + length (deleted_files_infos_ (call pf env c s)))%nat.
Proof.
  intros Hc. destruct c; cbn [call start]; try done.
  - by rewrite scheduled_cleanCachedFile, cleanCachedFile_deleted.
  - destruct (watchCachedFile_registry_queue pf env a r p s) as [-> _].
    by rewrite scheduled_watchCachedFile.
  - by rewrite scheduled_cleanCachedFile, cleanCachedFile_deleted.
  - pose proof (onFileChanged_registry_queue pf env local_path s) as H.
    destruct (onFileChanged_adds pf env local_path s) as [_ ->]. cbv zeta in H.
    destruct (suppressed pf env local_path s); [injection H as _ ->; lia|].
    destruct (watch_infos_ s !! local_path); [|injection H as _ ->; lia].
    destruct (file_exists env local_path); injection H as _ ->;
      rewrite ?length_app; simpl; lia.
  - by rewrite scheduled_onUpdateTaskFinished, onUpdateTaskFinished_deleted.
  - rewrite scheduled_removeWatch. unfold removeWatch.
    by rewrite removePath_deleted.
  - rewrite scheduled_fileOpened. unfold fileOpened. by destruct (_ || _).
Qed.

(** A firing takes one entry off a non-empty queue and schedules nothing. *)
Lemma checkFileRecreated_balance pf env s :
  scheduled (checkFileRecreated pf env s) = scheduled s
  ∧ length (deleted_files_infos_ (checkFileRecreated pf env s))
    = pred (length (deleted_files_infos_ s)).
Proof.
  destruct (deleted_files_infos_ s) as [|info rest] eqn:Hq.
  { unfold checkFileRecreated. rewrite Hq. by rewrite Hq. }
  rewrite (checkFileRecreated_cons pf env s info rest Hq). cbv zeta.
  set (p := getLocalCacheFilePath pf _ _).
  destruct (file_exists env p) eqn:Hex; [|done].
  set (s1 := set_watch_infos _ _).
  pose proof (onFileChanged_registry_queue pf env p s1) as H. cbv zeta in H.
  destruct (onFileChanged_adds pf env p s1) as [_ ->].
  assert (Hreg : watch_infos_ s1 !! p = Some info) by apply lookup_insert_eq.
  rewrite Hreg, Hex in H |- *.
  assert (Hs1 : scheduled s1 = scheduled s) by (unfold s1; trace_simpl; lia).
  assert (Hq1 : deleted_files_infos_ s1 = rest).
  { unfold s1. proj_simpl. by rewrite addPath_deleted. }
  destruct (suppressed pf env p s1); injection H as _ Hx;
    rewrite Hx, Hs1, addPath_deleted; simpl; split; lia.
Qed.

Lemma timer_balance_from pf steps :
  ∀ s fired,
  timer_driven pf steps s fired →
  (length (deleted_files_infos_ s) + fired = scheduled s)%nat →
  (length (deleted_files_infos_ (run pf steps s)) + (fired + firings steps)
   = scheduled (run pf steps s))%nat.
Proof.
  induction steps as [|[env c] steps IH]; intros s fired Hdriven Hbal.
  { simpl. lia. }
  assert (Hcase : c = CheckFileRecreated ∨ c ≠ CheckFileRecreated)
    by (destruct c; (by left) || (by right)).
  destruct Hcase as [->|Hc].
  - destruct Hdriven as [Hlt Hdriven]. cbn [run firings call] in *.
    destruct (checkFileRecreated_balance pf env s) as [Hs Hl].
    assert (Hbal' : (length (deleted_files_infos_ (checkFileRecreated pf env s))
                     + S fired = scheduled (checkFileRecreated pf env s))%nat)
      by (rewrite Hs, Hl; lia).
    specialize (IH _ _ Hdriven Hbal'). lia.
  - assert (Hdriven' : timer_driven pf steps (call pf env c s) fired)
      by (by destruct c).
    assert (Hf : firings ((env, c) :: steps) = firings steps) by (by destruct c).
    rewrite Hf. cbn [run]. apply IH; [done|].
    pose proof (call_balance pf env c s Hc). lia.
Qed.

(** X14: along every run from the constructor in which [checkFileRecreated]
    is called by the timers only, the entries in the deferred queue are as
    many as the timers still to fire: queue length plus firings equals
    timers scheduled. *)
Theorem timer_balance pf steps :
  timer_driven pf steps initial 0 →
  let s := run pf steps initial in
  (length (deleted_files_infos_ s) + firings steps = scheduled s)%nat.
Proof.
  intros Hdriven. cbv zeta.
  by apply (timer_balance_from pf steps initial 0%nat Hdriven).
Qed.

Lemma timer_balance_witness :
  let s := run (sample_platform false) save_by_replace initial in
  timer_driven (sample_platform false) save_by_replace initial 0
  ∧ firings save_by_replace = 1%nat
  ∧ (length (deleted_files_infos_ s) + firings save_by_replace = scheduled s)%nat.
Proof.
  cbv zeta.
  assert (H : timer_driven (sample_platform false) save_by_replace initial 0).
  { split; [vm_compute; lia | exact I]. }
  split_and!; [exact H | reflexivity | exact (timer_balance _ _ H)].
Defined.

Lemma timer_driven_app pf l1 :
  ∀ l2 s fired,
  timer_driven pf (l1 ++ l2) s fired →
  timer_driven pf l1 s fired
  ∧ timer_driven pf l2 (run pf l1 s) (fired + firings l1).
Proof.
  induction l1 as [|[env c] l1 IH]; intros l2 s fired H.
  { simpl. by rewrite Nat.add_0_r. }
  destruct c; cbn [app timer_driven run firings] in *;
    try (by apply IH).
  destruct H as [Hlt H]. destruct (IH _ _ _ H) as [H1 H2].
  split; [done|]. by rewrite Nat.add_succ_r.
Qed.

(** X15: the comment on line 180 is right: in a run from the constructor
    in which [checkFileRecreated] is called by the timers only, the queue
    is not empty when it is called. *)
Theorem checkFileRecreated_queue_not_empty pf steps env :
  timer_driven pf (steps ++ [(env, CheckFileRecreated)]) initial 0 →
  deleted_files_infos_ (run pf steps initial) ≠ [].
Proof.
  intros H. apply timer_driven_app in H as [H1 [Hlt _]].
  pose proof (timer_balance_from pf steps initial 0%nat H1 eq_refl) as Hbal.
  intros Hq. rewrite Hq in Hbal. simpl in *. lia.
Qed.

Lemma checkFileRecreated_queue_not_empty_witness :
  timer_driven (sample_platform false)
               (deleted_under_watch ++ [(sample_env [report] alice, CheckFileRecreated)])
               initial 0
  ∧ deleted_files_infos_ (run (sample_platform false) deleted_under_watch initial) ≠ [].
Proof.
  assert (H : timer_driven (sample_platform false)
                (deleted_under_watch ++ [(sample_env [report] alice, CheckFileRecreated)])
                initial 0).
  { split; [vm_compute; lia | exact I]. }
  split; [exact H | exact (checkFileRecreated_queue_not_empty _ _ _ H)].
Defined.

(** ** No registered file goes unwatched *)

Lemma watched_or_uploading_shrink s s' :
  (∀ k i, watch_infos_ s' !! k = Some i → watch_infos_ s !! k = Some i) →
  (∀ k, is_Some (watch_infos_ s' !! k) → k ∈ watcher_ s → k ∈ watcher_ s') →
  watched_or_uploading s → watched_or_uploading s'.
Proof.
  intros Hsub Hw Hinv k i Hk. destruct (Hinv k i (Hsub k i Hk)) as [Harm|Hup];
    [left; apply Hw; eauto | by right].
Qed.

Lemma watchCachedFile_watched pf env a r p s :
  accepts_adds env →
  watched_or_uploading s → watched_or_uploading (watchCachedFile pf env a r p s).
Proof.
  intros Hok Hinv. unfold watched_or_uploading.
  destruct (watchCachedFile_registry_queue pf env a r p s) as [_ ->].
  rewrite watchCachedFile_watcher. destruct (_ && _); [|done].
  rewrite addPath_ok by apply Hok. proj_simpl.
  apply map_Forall_insert_2; [left; set_solver|].
  intros k i Hk. destruct (Hinv k i Hk); [left; set_solver | by right].
Qed.

Lemma onFileChanged_watched pf env L s :
  watched_or_uploading s → watched_or_uploading (onFileChanged pf env L s).
Proof.
  intros Hinv k i Hk.
  pose proof (onFileChanged_registry_queue pf env L s) as H. cbv zeta in H.
  destruct (onFileChanged_watcher pf env L s) as [_ Hsup].
  assert (Hother : ∀ i', k ≠ L → watch_infos_ s !! k = Some i' →
                         k ∈ watcher_ (onFileChanged pf env L s) ∨ uploading i' = true).
  { intros i' Hne Hi'. destruct (Hinv k i' Hi'); [left; set_solver | by right]. }
  destruct (suppressed pf env L s) eqn:Hs.
  { injection H as Hm _. rewrite Hm in Hk. unfold onFileChanged, qDebug.
    rewrite suppressed_emit, Hs. exact (Hinv k i Hk). }
  destruct (watch_infos_ s !! L) as [info|] eqn:Hreg.
  - destruct (file_exists env L); injection H as Hm _; rewrite Hm in Hk.
    + apply lookup_insert_Some in Hk as [[<- <-]|[Hne Hk]]; [by right|].
      by apply Hother.
    + apply lookup_delete_Some in Hk as [Hne Hk]. by apply Hother.
  - injection H as Hm _. rewrite Hm in Hk. apply Hother; [|done].
    intros ->. congruence.
Qed.

Lemma onUpdateTaskFinished_watched pf env sender success s :
  accepts_adds env →
  watched_or_uploading s →
  watched_or_uploading (onUpdateTaskFinished pf env sender success s).
Proof.
  intros Hok Hinv. destruct sender as [task|]; [|done]. destruct success.
  - rewrite (onUpdateTaskFinished_success_state pf env task s (Hok _)).
    unfold watched_or_uploading. proj_simpl.
    apply map_Forall_insert_2; [left; set_solver|].
    intros k i Hk. destruct (Hinv k i Hk); [left; set_solver | by right].
  - rewrite (onUpdateTaskFinished_failure_state pf env task s).
    apply (watched_or_uploading_shrink s); [|done|done].
    intros k i. proj_simpl. by intros [_ ?]%lookup_delete_Some.
Qed.

Lemma removeWatch_watched env L s :
  watched_or_uploading s → watched_or_uploading (removeWatch env L s).
Proof.
  apply watched_or_uploading_shrink; unfold removeWatch.
  - intros k i. rewrite removePath_watch_infos. proj_simpl.
    by intros [_ ?]%lookup_delete_Some.
  - intros k. rewrite removePath_watch_infos. proj_simpl.
    intros [i [Hne _]%lookup_delete_Some] Hk.
    destruct (removePath_bounds env L
                (set_watch_infos (delete L (watch_infos_ s)) s)) as [_ Hsup].
    revert Hsup. proj_simpl. set_solver.
Qed.

Lemma checkFileRecreated_watched pf env s :
  accepts_adds env →
  watched_or_uploading s → watched_or_uploading (checkFileRecreated pf env s).
Proof.
  intros Hok Hinv. destruct (deleted_files_infos_ s) as [|info rest] eqn:Hq.
  { unfold checkFileRecreated. by rewrite Hq. }
  rewrite (checkFileRecreated_cons pf env s info rest Hq). cbv zeta.
  destruct (file_exists env _); [|done].
  apply onFileChanged_watched. unfold watched_or_uploading.
  rewrite addPath_ok by apply Hok. proj_simpl.
  apply map_Forall_insert_2; [left; set_solver|].
  intros k i Hk. destruct (Hinv k i Hk); [left; set_solver | by right].
Qed.

Lemma call_watched pf env c s :
  accepts_adds env →
  watched_or_uploading s → watched_or_uploading (call pf env c s).
Proof.
  intros Hok Hinv. destruct c; cbn [call start].
  - apply (watched_or_uploading_shrink s); [|done|done].
    intros k i. rewrite cleanCachedFile_lookup.
    destruct (watch_infos_ s !! k); [|done]. simpl. by destruct (bool_decide _).
  - by apply watchCachedFile_watched.
  - apply (watched_or_uploading_shrink s); [|done|done].
    intros k i. rewrite cleanCachedFile_lookup.
    destruct (watch_infos_ s !! k); [|done]. simpl. by destruct (bool_decide _).
  - by apply onFileChanged_watched.
  - by apply onUpdateTaskFinished_watched.
  - by apply removeWatch_watched.
  - by apply checkFileRecreated_watched.
  - unfold fileOpened. by destruct (_ || _).
Qed.

(** X16: with a watcher that takes every path it is given, along every run
    from the constructor each registry entry is armed or marked uploading:
    no registered file is left without a watch and without an upload under
    way. *)
Theorem registered_is_watched_or_uploading pf steps :
  Forall (λ step, accepts_adds step.1) steps →
  watched_or_uploading (run pf steps initial).
Proof.
  assert (Hgen : ∀ s, Forall (λ step, accepts_adds step.1) steps →
                      watched_or_uploading s → watched_or_uploading (run pf steps s)).
  { induction steps as [|[env c] steps IH]; intros s Hall Hinv; [done|].
    apply Forall_cons in Hall as [Hok Hall]. cbn [run].
    apply IH; [done|]. by apply call_watched. }
  intros Hall. apply Hgen; [done|]. apply map_Forall_empty.
Qed.

Lemma registered_is_watched_or_uploading_witness :
  Forall (λ step, accepts_adds step.1) save_by_replace
  ∧ watched_or_uploading (run (sample_platform false) save_by_replace initial).
Proof.
  assert (H : Forall (λ step, accepts_adds step.1) save_by_replace).
  { repeat constructor. }
  split; [exact H | exact (registered_is_watched_or_uploading _ _ H)].
Defined.

(** ** The Mac workaround *)

Lemma qint64_wrap_in_range z :
  -9223372036854775808 ≤ z < 9223372036854775808 → qint64_wrap z = z.
Proof. intros Hz. unfold qint64_wrap. rewrite Z.mod_small; lia. Qed.

Lemma qint64_wrap_above z :
  9223372036854775808 ≤ z < 27670116110564327424 →
  qint64_wrap z = z - 18446744073709551616.
Proof.
  intros Hz. unfold qint64_wrap.
  replace (z + 9223372036854775808)
    with ((z - 9223372036854775808) + 1 * 18446744073709551616) by lia.
  rewrite Z.mod_add by lia. rewrite Z.mod_small; lia.
Qed.

Lemma fileOpened_recent_at pf env env' p q s :
  isRecentOpenedImage env' q (fileOpened pf env p s) =
  if image_or_pdf pf p && bool_decide (q = p)
  then bool_decide (currentMSecsSinceEpoch env'
                    < qint64_add (currentMSecsSinceEpoch env) (1000 * 10))
  else isRecentOpenedImage env' q s.
Proof.
  unfold fileOpened, image_or_pdf, isRecentOpenedImage.
  destruct (_ || _); cbn [andb]; [|done]. proj_simpl.
  destruct (bool_decide_reflect (q = p)) as [->|Hne].
  - rewrite lookup_insert_eq. cbn [default]. by destruct (bool_decide _).
  - by rewrite lookup_insert_ne.
Qed.

(** X17: after [fileOpened] on an image or PDF at time [t], the path counts
    as recently opened exactly while the clock is below the [qint64] sum of
    [t] and 10000; that sum is [t] + 10000 when it fits the 64-bit signed
    range and [t] + 10000 - 2^64 when it passes the upper end.  For any
    other path, and after [fileOpened] on a file of another type, the
    answer is what it was; a path never opened counts as recent only while
    the clock itself is below 10000.  [fileOpened] writes nothing but the
    image table. *)
Theorem fileOpened_recent pf env env' p q s :
  let s' := fileOpened pf env p s in
  let t := currentMSecsSinceEpoch env in
  isRecentOpenedImage env' q s' =
    (if image_or_pdf pf p && bool_decide (q = p)
     then bool_decide (currentMSecsSinceEpoch env' < qint64_add t (1000 * 10))
     else isRecentOpenedImage env' q s)
  ∧ (-9223372036854775808 ≤ t → t + 10000 < 9223372036854775808 →
     qint64_add t (1000 * 10) = t + 10000)
  ∧ (9223372036854775808 ≤ t + 10000 → t < 9223372036854775808 →
     qint64_add t (1000 * 10) = t + 10000 - 18446744073709551616)
  ∧ (images_ s !! q = None →
     isRecentOpenedImage env' q s = bool_decide (currentMSecsSinceEpoch env' < 10000))
  ∧ watch_infos_ s' = watch_infos_ s
  ∧ watcher_ s' = watcher_ s
  ∧ deleted_files_infos_ s' = deleted_files_infos_ s
  ∧ effects s' = effects s.
Proof.
  cbv zeta. split_and!.
  - apply fileOpened_recent_at.
  - intros Hlo Hhi. unfold qint64_add. apply qint64_wrap_in_range. lia.
  - intros Hlo Hhi. unfold qint64_add. rewrite qint64_wrap_above; lia.
  - unfold isRecentOpenedImage. intros ->. cbn [default].
    change (qint64_add 0 (1000 * 10)) with 10000.
    by destruct (bool_decide _).
  - unfold fileOpened. by destruct (_ || _).
  - unfold fileOpened. by destruct (_ || _).
  - unfold fileOpened. by destruct (_ || _).
  - unfold fileOpened. by destruct (_ || _).
Qed.

(** X18: on a Mac build, for a clock [t] at which [t] + 10000 fits the
    [qint64] range, a change notification that arrives less than ten
    seconds after the file was opened at [t] as an image or PDF is dropped
    whole: nothing but the debug line is added, so the path stays armed,
    the registry entry is as it was and no upload starts. *)
Theorem opened_image_change_dropped pf env env' p s :
  Q_OS_MAC pf = true →
  image_or_pdf pf p = true →
  -9223372036854775808 ≤ currentMSecsSinceEpoch env →
  currentMSecsSinceEpoch env + 10000 < 9223372036854775808 →
  currentMSecsSinceEpoch env' < currentMSecsSinceEpoch env + 10000 →
  let s1 := fileOpened pf env p s in
  onFileChanged pf env' p s1 =
  qDebug ("[AutoUpdateManager] detected cache file " +:+ p +:+ " changed") s1.
Proof.
  intros Hmac Himg Hlo Hhi Hlt. cbv zeta.
  pose proof (fileOpened_recent_at pf env env' p p s) as Hrecent.
  unfold qint64_add in Hrecent. rewrite qint64_wrap_in_range in Hrecent by lia.
  unfold onFileChanged, qDebug. rewrite suppressed_emit. unfold suppressed.
  rewrite Hmac, Hrecent, Himg, !bool_decide_eq_true_2 by (done || lia). done.
Qed.

Lemma opened_image_change_dropped_witness :
  let pf := sample_platform true in
  let env := sample_env [photo] alice in
  photo ∈ watcher_ viewing_photo
  ∧ onFileChanged pf env photo viewing_photo =
    qDebug ("[AutoUpdateManager] detected cache file " +:+ photo +:+ " changed")
           viewing_photo.
Proof.
  cbv zeta. split; [vm_compute; reflexivity|].
  apply (opened_image_change_dropped (sample_platform true)
           (sample_env [photo] alice) (sample_env [photo] alice) photo
           (watchCachedFile (sample_platform true) (sample_env [photo] alice)
                            alice "repoX" "/photo.png" initial));
    [reflexivity | vm_compute; reflexivity | vm_compute; discriminate
     | vm_compute; reflexivity | vm_compute; reflexivity].
Defined.

(** At the upper end of the range the sum wraps: a file opened at the
    largest [qint64] clock does not count as recently opened at that same
    clock. *)
Example isRecentOpenedImage_wraps :
  let env := mkEnv (λ _, true) alice 9223372036854775807 (λ _, true) (λ _, true) in
  isRecentOpenedImage env photo (fileOpened (sample_platform true) env photo initial)
  = false.
Proof. vm_compute; reflexivity. Qed.

(** ** Cleaning and the deferred queue *)

Lemma kept_kept cur o : kept cur (kept cur o) = kept cur o.
Proof.
  destruct o as [i|]; [|done]. simpl.
  destruct (bool_decide (account i = cur)) eqn:E; [done|]. simpl. by rewrite E.
Qed.

(** X19: [cleanCachedFile] touches neither the watch set nor the deferred
    queue nor the image table, and cleaning twice for the same account
    leaves the registry as cleaning once does. *)
Theorem cleanCachedFile_frame_idempotent env s :
  let s' := cleanCachedFile env s in
  watcher_ s' = watcher_ s
  ∧ deleted_files_infos_ s' = deleted_files_infos_ s
  ∧ images_ s' = images_ s
  ∧ watch_infos_ (cleanCachedFile env s') = watch_infos_ s'.
Proof.
  cbv zeta. split_and!; try done.
  apply map_eq. intros k. by rewrite !cleanCachedFile_lookup, kept_kept.
Qed.

(** X20: the queue survives the cleaning: an entry of the cleaned account
    that waits at the head of the deferred queue comes back into the
    registry at the next re-check if its file exists; unless the Mac hook
    discards the event of that re-check, it is marked uploading and one
    upload for that account is started; if the hook discards it, the entry
    is back as it was queued and no upload is started. *)
Theorem cleaned_account_comes_back pf env env' s info rest :
  deleted_files_infos_ s = info :: rest →
  account info = currentAccount env →
  let p := getLocalCacheFilePath pf (repo_id info) (path_in_repo info) in
  file_exists env' p = true →
  let s' := checkFileRecreated pf env' (cleanCachedFile env s) in
  watch_infos_ s' !! p
  = Some (if suppressed pf env' p s then info else set_uploading true info)
  ∧ uploads_started s' =
    uploads_started s ++
    (if suppressed pf env' p s then [] else [upload_request pf p info])
  ∧ req_account (upload_request pf p info) = currentAccount env.
Proof.
  intros Hq Hacc p Hex. cbv zeta.
  assert (Hq' : deleted_files_infos_ (cleanCachedFile env s) = info :: rest) by done.
  rewrite (checkFileRecreated_cons pf env' _ info rest Hq'). cbv zeta.
  fold p. rewrite Hex. set (s1 := set_watch_infos _ _).
  assert (Hreg : watch_infos_ s1 !! p = Some info) by apply lookup_insert_eq.
  assert (Hsup1 : suppressed pf env' p s1 = suppressed pf env' p s).
  { unfold suppressed, isRecentOpenedImage, s1. proj_simpl.
    by rewrite addPath_images. }
  assert (Hup1 : uploads_started s1 = uploads_started s).
  { unfold s1, cleanCachedFile. trace_simpl. by rewrite ?app_nil_r. }
  pose proof (onFileChanged_registry_queue pf env' p s1) as H. cbv zeta in H.
  destruct (onFileChanged_adds pf env' p s1) as [-> _].
  rewrite Hsup1, Hreg, Hex in H |- *.
  destruct (suppressed pf env' p s); injection H as -> _.
  - split_and!; [done | by rewrite Hup1 | done].
  - split_and!; [apply lookup_insert_eq | by rewrite Hup1 | done].
Qed.

Lemma cleaned_account_comes_back_witness :
  let pf := sample_platform false in
  let env := sample_env [report] alice in
  let info := WatchedFileInfo_new alice "repoX" "/report.docx" in
  let s' := checkFileRecreated pf env (cleanCachedFile env report_deferred) in
  currentAccount env = alice
  ∧ watch_infos_ (cleanCachedFile env report_deferred) = ∅
  ∧ watch_infos_ s' !! report = Some (set_uploading true info)
  ∧ uploads_started s' = uploads_started report_deferred ++ [upload_request pf report info].
Proof.
  cbv zeta.
  destruct (cleaned_account_comes_back (sample_platform false)
              (sample_env [report] alice) (sample_env [report] alice)
              report_deferred (WatchedFileInfo_new alice "repoX" "/report.docx") [])
    as (Hreg & Hup & _);
    [vm_compute; reflexivity | reflexivity | reflexivity |].
  split_and!; [reflexivity | vm_compute; reflexivity | exact Hreg | exact Hup].
Defined.

(** ** The cleaner of the cache directory *)

Lemma CachedFilesCleaner_run_cooperative {D} (fs : FileSystem D) cfg d log :
  cooperative fs →
  distinct_paths cfg →
  let r := CachedFilesCleaner_run fs cfg (d, log) in
  path_exists fs (file_cache_db_file cfg) r.1 = false
  ∧ path_exists fs (file_cache_tmp_dir cfg) r.1 = false
  ∧ path_exists fs (file_cache_dir cfg) r.1 = false
  ∧ r.2 = log ++ [QLog Debug "[AutoUpdateManager] removing cached files"].
Proof.
  intros Hfs (Hdt & Hdc & Htc). cbv zeta. unfold CachedFilesCleaner_run.
  set (db := file_cache_db_file cfg) in *.
  set (tmp := file_cache_tmp_dir cfg) in *.
  set (cache := file_cache_dir cfg) in *.
  (* the database file *)
  assert (H1 : ∃ d1, (if path_exists fs db d
                      then let '(ok, d0) := QFile_remove fs db d in
                           if negb ok
                           then (d0, (log ++ [QLog Debug "[AutoUpdateManager] removing cached files"])
                                     ++ [QLog Warning "[AutoUpdateManager] failed to remove db file"])
                           else (d0, log ++ [QLog Debug "[AutoUpdateManager] removing cached files"])
                      else (d, log ++ [QLog Debug "[AutoUpdateManager] removing cached files"]))
                     = (d1, log ++ [QLog Debug "[AutoUpdateManager] removing cached files"])
                     ∧ path_exists fs db d1 = false
                     ∧ path_exists fs tmp d1 = path_exists fs tmp d
                     ∧ path_exists fs cache d1 = path_exists fs cache d).
  { destruct (path_exists fs db d) eqn:Hdb; [|by exists d].
    pose proof (remove_succeeds fs Hfs db d Hdb) as Hok.
    pose proof (remove_removes fs Hfs db d) as Hgone.
    pose proof (remove_frame fs Hfs db tmp d (not_eq_sym Hdt)) as Ht.
    pose proof (remove_frame fs Hfs db cache d (not_eq_sym Hdc)) as Hc.
    destruct (QFile_remove fs db d) as [ok d0]. simpl in *. subst ok.
    by exists d0. }
  destruct H1 as (d1 & -> & Hdb1 & Ht1 & Hc1).
  (* the temporary directory *)
  set (d2 := if path_exists fs tmp d1 then delete_dir_recursively fs tmp d1 else d1).
  assert (H2 : path_exists fs db d2 = false ∧ path_exists fs tmp d2 = false
               ∧ path_exists fs cache d2 = path_exists fs cache d1).
  { unfold d2. destruct (path_exists fs tmp d1) eqn:Htmp; [|done].
    rewrite (delete_deletes fs Hfs), !(delete_frame fs Hfs) by done. done. }
  destruct H2 as (Hdb2 & Ht2 & Hc2). clearbody d2. cbn [fst snd].
  (* the cache directory *)
  destruct (path_exists fs cache d2) eqn:Hcache; [|done].
  rewrite (delete_deletes fs Hfs), !(delete_frame fs Hfs) by done.
  rewrite (rename_moves fs Hfs) by done.
  rewrite (rename_frame fs Hfs) by done. done.
Qed.

Lemma CachedFilesCleaner_run_nothing_to_do {D} (fs : FileSystem D) cfg d log :
  path_exists fs (file_cache_db_file cfg) d = false →
  path_exists fs (file_cache_tmp_dir cfg) d = false →
  path_exists fs (file_cache_dir cfg) d = false →
  CachedFilesCleaner_run fs cfg (d, log)
  = (d, log ++ [QLog Debug "[AutoUpdateManager] removing cached files"]).
Proof.
  intros Hdb Htmp Hcache. unfold CachedFilesCleaner_run.
  by rewrite Hdb, Htmp, Hcache.
Qed.

Lemma sample_disk_cooperative : cooperative sample_disk.
Proof.
  split; unfold sample_disk;
    cbn [path_exists QFile_remove delete_dir_recursively QDir_rename fst snd].
  - intros f d. apply bool_decide_eq_false_2. set_solver.
  - by intros f d ->.
  - intros f g d Hne. apply bool_decide_ext. set_solver.
  - intros p d. apply bool_decide_eq_false_2. set_solver.
  - intros p g d Hne. apply bool_decide_ext. set_solver.
  - intros a b d Ha Hb. rewrite Ha, Hb. cbn [andb negb snd].
    apply bool_decide_eq_true in Ha. apply bool_decide_eq_false in Hb.
    apply bool_decide_eq_false_2. set_solver.
  - intros a b g d Ha Hb. destruct (_ && _); cbn [snd]; [|done].
    apply bool_decide_ext. set_solver.
Qed.

Lemma sample_paths_distinct : distinct_paths sample_cleaner_config.
Proof. split_and!; vm_compute; by intros [=]. Qed.

(** X21: on a disk where removal, recursive deletion and renaming do their
    work, after [run] neither the database file nor the temporary
    directory nor the cache directory exists, and nothing was logged but
    the debug line. *)
Theorem CachedFilesCleaner_run_clears {D} (fs : FileSystem D) cfg d log :
  cooperative fs →
  distinct_paths cfg →
  let r := CachedFilesCleaner_run fs cfg (d, log) in
  path_exists fs (file_cache_db_file cfg) r.1 = false
  ∧ path_exists fs (file_cache_tmp_dir cfg) r.1 = false
  ∧ path_exists fs (file_cache_dir cfg) r.1 = false
  ∧ r.2 = log ++ [QLog Debug "[AutoUpdateManager] removing cached files"].
Proof. apply CachedFilesCleaner_run_cooperative. Qed.

Lemma CachedFilesCleaner_run_clears_witness :
  let r := CachedFilesCleaner_run sample_disk sample_cleaner_config
                                  (sample_disk_contents, []) in
  r.1 = {[ "/home/alice/Seafile/.seafile-data/accounts.db" ]}
  ∧ path_exists sample_disk (file_cache_db_file sample_cleaner_config) r.1 = false
  ∧ path_exists sample_disk (file_cache_tmp_dir sample_cleaner_config) r.1 = false
  ∧ path_exists sample_disk (file_cache_dir sample_cleaner_config) r.1 = false.
Proof.
  cbv zeta.
  destruct (CachedFilesCleaner_run_clears sample_disk sample_cleaner_config
              sample_disk_contents [] sample_disk_cooperative sample_paths_distinct)
    as (Hdb & Htmp & Hcache & _).
  split_and!; [vm_compute; reflexivity | exact Hdb | exact Htmp | exact Hcache].
Defined.

(** X22: a second [run] right after a first one on such a disk finds
    nothing to do: the disk is as the first run left it and the log gains
    the debug line only. *)
Theorem CachedFilesCleaner_run_twice {D} (fs : FileSystem D) cfg d log :
  cooperative fs →
  distinct_paths cfg →
  let r := CachedFilesCleaner_run fs cfg (d, log) in
  CachedFilesCleaner_run fs cfg r
  = (r.1, r.2 ++ [QLog Debug "[AutoUpdateManager] removing cached files"]).
Proof.
  intros Hfs Hpaths. cbv zeta.
  destruct (CachedFilesCleaner_run_cooperative fs cfg d log Hfs Hpaths)
    as (Hdb & Htmp & Hcache & _).
  destruct (CachedFilesCleaner_run fs cfg (d, log)) as [d' log'].
  by apply CachedFilesCleaner_run_nothing_to_do.
Qed.

Lemma CachedFilesCleaner_run_twice_witness :
  let r := CachedFilesCleaner_run sample_disk sample_cleaner_config
                                  (sample_disk_contents, []) in
  CachedFilesCleaner_run sample_disk sample_cleaner_config r
  = (r.1, r.2 ++ [QLog Debug "[AutoUpdateManager] removing cached files"]).
Proof.
  exact (CachedFilesCleaner_run_twice sample_disk sample_cleaner_config
           sample_disk_contents [] sample_disk_cooperative sample_paths_distinct).
Defined.

(** X23: [run] does not look at what [delete_dir_recursively] and
    [QDir::rename] answer.  If the temporary directory exists and cannot be
    deleted, and renaming onto an existing directory is refused, the cache
    directory is still there after [run], and (the database file being
    absent) the log holds the debug line and no warning. *)
Theorem CachedFilesCleaner_run_leaves_cache {D} (fs : FileSystem D) cfg d log :
  (∀ p d, delete_dir_recursively fs p d = d) →
  (∀ a b d, path_exists fs b d = true → (QDir_rename fs a b d).2 = d) →
  path_exists fs (file_cache_db_file cfg) d = false →
  path_exists fs (file_cache_tmp_dir cfg) d = true →
  path_exists fs (file_cache_dir cfg) d = true →
  CachedFilesCleaner_run fs cfg (d, log)
  = (d, log ++ [QLog Debug "[AutoUpdateManager] removing cached files"]).
Proof.
  intros Hdel Hren Hdb Htmp Hcache. unfold CachedFilesCleaner_run.
  rewrite Hdb, Htmp, !Hdel, Hcache, Hren by done. done.
Qed.

Lemma CachedFilesCleaner_run_leaves_cache_witness :
  let r := CachedFilesCleaner_run stubborn_disk sample_cleaner_config
                                  (sample_disk_no_db, []) in
  path_exists stubborn_disk (file_cache_dir sample_cleaner_config) sample_disk_no_db = true
  ∧ r = (sample_disk_no_db,
         [QLog Debug "[AutoUpdateManager] removing cached files"]).
Proof.
  cbv zeta. split; [vm_compute; reflexivity|].
  apply (CachedFilesCleaner_run_leaves_cache stubborn_disk sample_cleaner_config
           sample_disk_no_db []).
  - done.
  - intros a b d' Hb. unfold stubborn_disk, sample_disk in *.
    cbn [path_exists QDir_rename] in *. rewrite Hb. by rewrite andb_false_r.
  - vm_compute; reflexivity.
  - vm_compute; reflexivity.
  - vm_compute; reflexivity.
Defined.
